(** * create-pull-request.py: branch reconciliation and idempotency

    A shallow embedding of the script [create-pull-request.py].  The script
    is a straight-line program that talks to three collaborators: the
    process environment, a git working copy (through GitPython) and the
    hosting API (through PyGithub).  Every function of the script is
    translated to a computation in a small state-and-exception monad whose
    state is the outside world together with the log of the calls made so
    far.  What the collaborators answer is left to an arbitrary [System], so
    a statement proved here holds for every behaviour of git and of the
    hosting API. *)

From Stdlib Require Import ZArith Lia Ascii String.
From stdpp Require Import base strings list gmap pretty.

Local Open Scope string_scope.
Local Open Scope Z_scope.

(** ** Python values and exceptions *)

(** The exceptions the script can meet.  [SystemExit] is what [sys.exit()]
    raises; the interpreter turns it into exit status 0 when it carries no
    argument. *)
Inductive exn : Type :=
| SystemExit
| KeyError (key : string)
| TypeError
| ValueError
| IndexError
| OSError
| InvalidGitRepositoryError
| GitCommandError
| GithubException.

Inductive outcome (A : Type) : Type :=
| Val (a : A)
| Raise (e : exn).
Arguments Val {A} a.
Arguments Raise {A} e.

(** A value decoded by [json.load].  Strings are sequences of characters
    with code points below 256.  A number or a list is carried with the text
    [str()] gives for it, a dictionary with that text and its items: the
    script only ever formats values and indexes dictionaries. *)
Inductive pyval : Type :=
| PyNone
| PyBool (b : bool)
| PyStr (s : string)
| PyOther (text : string)
| PyDict (text : string) (items : pyitems)
with pyitems : Type :=
| PyNil
| PyItem (key : string) (value : pyval) (rest : pyitems).

Definition py_str (v : pyval) : string :=
  match v with
  | PyNone => "None"
  | PyBool true => "True"
  | PyBool false => "False"
  | PyStr s => s
  | PyOther text => text
  | PyDict text _ => text
  end.

Fixpoint py_dict_get (k : string) (items : pyitems) : option pyval :=
  match items with
  | PyNil => None
  | PyItem k' v rest => if String.eqb k' k then Some v else py_dict_get k rest
  end.

(** Indexing inside a format field: dictionaries are indexed by key; None,
    the booleans and numbers are not subscriptable, and a string or list
    index must be an integer. *)
Definition py_index (v : pyval) (k : string) : outcome pyval :=
  match v with
  | PyDict _ items =>
      match py_dict_get k items with
      | Some x => Val x
      | None => Raise (KeyError k)
      end
  | _ => Raise TypeError
  end.

Fixpoint py_path (v : pyval) (ks : list string) : outcome pyval :=
  match ks with
  | [] => Val v
  | k :: ks' =>
      match py_index v k with
      | Val x => py_path x ks'
      | Raise e => Raise e
      end
  end.

(** A format string made of one replacement field, k0 followed by the
    bracketed keys ks, applied to the keyword arguments [event_data]. *)
Definition format_field (event_data : pyval) (k0 : string) (ks : list string)
  : outcome string :=
  match py_path event_data (k0 :: ks) with
  | Val x => Val (py_str x)
  | Raise e => Raise e
  end.

(** ** String helpers of the Python runtime *)

(** [s[n:]] *)
Fixpoint str_drop (n : nat) (s : string) : string :=
  match n, s with
  | O, _ => s
  | S n', String _ s' => str_drop n' s'
  | S _, EmptyString => EmptyString
  end.

(** [s.split(sep)] for a one-character separator. *)
Fixpoint str_split (sep : ascii) (s : string) : list string :=
  match s with
  | EmptyString => [EmptyString]
  | String c s' =>
      if Ascii.eqb c sep then EmptyString :: str_split sep s'
      else match str_split sep s' with
           | x :: xs => String c x :: xs
           | [] => [String c EmptyString]
           end
  end.

(** [c.isspace()] on code points below 256. *)
Definition py_isspace (c : ascii) : bool :=
  let n := nat_of_ascii c in
  ((9 <=? n) && (n <=? 13) || (28 <=? n) && (n <=? 32)
   || (n =? 133) || (n =? 160))%nat.

Fixpoint str_lstrip (s : string) : string :=
  match s with
  | EmptyString => EmptyString
  | String c s' => if py_isspace c then str_lstrip s' else s
  end.

(** [s.strip()] *)
Definition str_strip (s : string) : string :=
  String.rev (str_lstrip (String.rev (str_lstrip s))).

Definition str_nonempty (s : string) : bool :=
  match s with
  | EmptyString => false
  | String _ _ => true
  end.

(** [bool(os.environ.get(k))]: [None] and the empty string are false, every
    other string is true. *)
Definition py_bool_of_env (v : option string) : bool :=
  match v with
  | None => false
  | Some s => str_nonempty s
  end.

Definition dquote : string := String "034"%char EmptyString.

(** ** Calls to the collaborators *)

(** The git commands the script issues through GitPython, one constructor
    per call shape of the source. *)
Inductive git_call : Type :=
| GitRevParseShortHead                             (* rev_parse('--short', 'HEAD') *)
| GitConfigGlobal (key value : string)             (* config('--global', key, value) *)
| GitRemoteSetUrl (remote url : string)            (* remote('set-url', remote, url) *)
| GitStashIncludeUntracked                         (* stash('--include-untracked') *)
| GitStashPop                                      (* stash('pop') *)
| GitCheckout (branch : string)                    (* checkout(branch) *)
| GitCheckoutTheirs (pathspec : string)            (* checkout('--theirs', pathspec) *)
| GitCheckoutNew (start branch : string)           (* checkout(start, b=branch) *)
| GitReset                                         (* reset() *)
| GitAddAll                                        (* add('-A') *)
| GitCommit (message : string)                     (* commit(m=message) *)
| GitPushForce (remote branch : string).           (* push('-f', '--set-upstream', remote, branch) *)

(** The hosting API calls.  A pull request, an issue and a milestone object
    are identified with the integer the API answered. *)
Inductive hub_call : Type :=
| HubGetRepo (token repository : string)
| HubCreatePull (repo : Z) (title body base head : string)
| HubAsIssue (pull : Z)
| HubEditLabels (issue : Z) (labels : list string)
| HubEditAssignees (issue : Z) (assignees : list string)
| HubGetMilestone (repo : Z) (number : Z)
| HubEditMilestone (issue : Z) (milestone : Z)
| HubRequestReviewers (pull : Z) (reviewers : list string)
| HubRequestTeamReviewers (pull : Z) (team_reviewers : list string).

(** One entry of the log: a command, an API call, a line printed, a shell
    command run by [os.system], or a query together with its answer. *)
Inductive action : Type :=
| AGit (c : git_call)
| AHub (c : hub_call)
| APrint (line : string)
| AShell (command : string)
| AOpenEvent (path : string)
| AOpenRepo
| ARefs (names : list string)
| AIsDirty (answer : bool)
| AUntracked (files : list string)
| ATime (seconds : Z)
| ARandBelow (n : nat) (answer : nat).

(** The two ways reading the event can fail: [open] cannot open the file,
    or [json.load] cannot decode what it holds. *)
Inductive load_failure : Type :=
| CannotOpen
| NotJson.

(** [open] raises [OSError]; [json.load] raises [JSONDecodeError], a
    [ValueError]. *)
Definition load_exception (f : load_failure) : exn :=
  match f with
  | CannotOpen => OSError
  | NotJson => ValueError
  end.

(** What the outside world answers.  [W] is the state of the world. *)
Record System (W : Type) : Type := {
  sys_load_event : string → W → option pyval;        (* open + json.load *)
  sys_load_failure : string → W → load_failure;      (* why, when it gives nothing *)
  sys_dumps : pyval → string;                        (* json.dumps(..., sort_keys, indent=2) *)
  sys_int : string → option Z;                       (* int(str) *)
  sys_open_repo : W → bool;                          (* Repo(os.getcwd()) *)
  sys_git : git_call → W → option string * W;
  sys_origin_refs : W → list string;                 (* names of repo.remotes.origin.refs *)
  sys_is_dirty : W → bool;
  sys_untracked_files : W → list string;
  sys_time : W → Z;                                  (* int(time.time()) *)
  sys_randbelow : nat → W → nat * W;                 (* the generator behind random.choice *)
  sys_hub : hub_call → W → option Z * W
}.
Arguments sys_load_event {W} _ _ _.
Arguments sys_load_failure {W} _ _ _.
Arguments sys_dumps {W} _ _.
Arguments sys_int {W} _ _.
Arguments sys_open_repo {W} _ _.
Arguments sys_git {W} _ _ _.
Arguments sys_origin_refs {W} _ _.
Arguments sys_is_dirty {W} _ _.
Arguments sys_untracked_files {W} _ _.
Arguments sys_time {W} _ _.
Arguments sys_randbelow {W} _ _ _.
Arguments sys_hub {W} _ _ _.

(** ** The monad: world and log threaded, exceptions propagated *)

Definition M (W A : Type) : Type := W * list action → outcome A * (W * list action).

Definition ret {W A} (a : A) : M W A := λ s, (Val a, s).

Definition bind {W A B} (m : M W A) (k : A → M W B) : M W B :=
  λ s, match m s with
       | (Val a, s') => k a s'
       | (Raise e, s') => (Raise e, s')
       end.

Definition raise {W A} (e : exn) : M W A := λ s, (Raise e, s).

(** [try: body / except: handler] with a bare [except]: every exception is
    caught, and the handler runs in the state the body left. *)
Definition try_except {W A} (body handler : M W A) : M W A :=
  λ s, match body s with
       | (Val a, s') => (Val a, s')
       | (Raise _, s') => handler s'
       end.

Definition emit {W} (a : action) : M W unit :=
  λ s, (Val tt, (s.1, (s.2 ++ [a])%list)).

Definition lift {W A} (o : outcome A) : M W A := λ s, (o, s).

(** A read-only question to the world, logged with its answer: the world is
    handed on unchanged. *)
Definition query {W A} (f : W → A) (entry : A → action) : M W A :=
  λ s, let a := f s.1 in (Val a, (s.1, (s.2 ++ [entry a])%list)).

(** A call that may change the world, logged. *)
Definition effect {W A} (f : W → A * W) (entry : A → action) : M W A :=
  λ s, let '(a, w') := f s.1 in (Val a, (w', (s.2 ++ [entry a])%list)).

Notation "x <- m ;; k" := (bind m (λ x, k))
  (at level 100, m at next level, right associativity, only parsing).
Notation "m ;;; k" := (bind m (λ _, k))
  (at level 100, right associativity, only parsing).

Definition print {W} (line : string) : M W unit := emit (APrint line).

(** [sys.exit()] *)
Definition sys_exit {W A} : M W A := raise SystemExit.

(** Exit status of the process once the script has run: falling off the end
    and [sys.exit()] give 0, an uncaught exception gives 1. *)
Definition exit_status {A} (r : outcome A) : Z :=
  match r with
  | Val _ => 0
  | Raise SystemExit => 0
  | Raise _ => 1
  end.

(** The repository object: [repo.git], [repo.remotes.origin.refs],
    [repo.is_dirty()] and [repo.untracked_files]. *)
Record Repo (W : Type) : Type := {
  repo_git : git_call → M W string;
  repo_origin_refs : M W (list string);
  repo_is_dirty : M W bool;
  repo_untracked_files : M W (list string)
}.
Arguments repo_git {W} _ _.
Arguments repo_origin_refs {W} _.
Arguments repo_is_dirty {W} _.
Arguments repo_untracked_files {W} _.

(** ** The script *)

Section Script.
Context {W : Type} (sys : System W).
Context (environ : gmap string string).

(** [os.environ[k]] *)
Definition environ_item (k : string) : M W string :=
  match environ !! k with
  | Some v => ret v
  | None => raise (KeyError k)
  end.

(** [os.getenv(k, default)] *)
Definition getenv (k default : string) : string :=
  match environ !! k with
  | Some v => v
  | None => default
  end.

(** A git command run through GitPython: logged, and a failing command
    raises [GitCommandError]. *)
Definition run_git (c : git_call) : M W string :=
  r <- effect (sys_git sys c) (λ _, AGit c) ;;
  match r with
  | Some out => ret out
  | None => raise GitCommandError
  end.

(** A call to the hosting API through PyGithub. *)
Definition run_hub (c : hub_call) : M W Z :=
  r <- effect (sys_hub sys c) (λ _, AHub c) ;;
  match r with
  | Some x => ret x
  | None => raise GithubException
  end.

(** The object [Repo(os.getcwd())] returns: its methods question the world
    of the script. *)
Definition repo_object : Repo W :=
  {| repo_git := run_git;
     repo_origin_refs := query (sys_origin_refs sys) ARefs;
     repo_is_dirty := query (sys_is_dirty sys) AIsDirty;
     repo_untracked_files := query (sys_untracked_files sys) AUntracked |}.

(** [Repo(os.getcwd())] *)
Definition open_repo : M W (Repo W) :=
  ok <- query (sys_open_repo sys) (λ _, AOpenRepo) ;;
  if ok : bool then ret repo_object
  else raise InvalidGitRepositoryError.

(** [open] and [json.load] are one attempt on the file: the first raises
    [OSError] when the file cannot be opened, the second a [ValueError] when
    its content is not JSON, and nothing is printed before either. *)
Definition get_github_event (github_event_path : string) : M W pyval :=
  loaded <- query (λ w, match sys_load_event sys github_event_path w with
                        | Some v => inr v
                        | None => inl (sys_load_failure sys github_event_path w)
                        end)
              (λ _, AOpenEvent github_event_path) ;;
  github_event <- match loaded with
                  | inr v => ret v
                  | inl failure => raise (load_exception failure)
                  end ;;
  (if py_bool_of_env (environ !! "DEBUG_EVENT")
   then (name <- environ_item "GITHUB_EVENT_NAME" ;;
         print name ;;;
         print (sys_dumps sys github_event))
   else ret tt) ;;;
  ret github_event.

Definition ignore_event (event_name : string) (event_data : pyval) : M W bool :=
  if String.eqb event_name "push" then
    deleted <- lift (format_field event_data "deleted" []) ;;
    if String.eqb deleted "True" then
      print "Ignoring delete branch event." ;;;
      ret true
    else
      ref <- lift (format_field event_data "ref" []) ;;
      if negb (String.prefix "refs/heads/" ref) then
        print "Ignoring events for tags and remotes." ;;;
        ret true
      else ret false
  else ret false.

Definition get_head_short_sha1 (repo : Repo W) : M W string :=
  repo_git repo GitRevParseShortHead.

Definition ascii_lowercase : string := "abcdefghijklmnopqrstuvwxyz".
Definition digits : string := "0123456789".

(** [random.choice(chars)]: an empty sequence raises [IndexError] without
    a draw; otherwise the generator is asked for an index below
    [len(chars)]. *)
Definition random_choice (chars : string) : M W ascii :=
  let n := String.length chars in
  if (n =? 0)%nat then raise IndexError
  else
    i <- effect (sys_randbelow sys n) (ARandBelow n) ;;
    match String.get (i mod n)%nat chars with
    | Some c => ret c
    | None => raise IndexError
    end.

(** [''.join(random.choice(chars) for _ in range(size))] *)
Fixpoint get_random_suffix_of (size : nat) (chars : string) : M W string :=
  match size with
  | O => ret EmptyString
  | S size' =>
      c <- random_choice chars ;;
      rest <- get_random_suffix_of size' chars ;;
      ret (String c rest)
  end.

(** [get_random_suffix()] with its default arguments. *)
Definition get_random_suffix : M W string :=
  get_random_suffix_of 7 (ascii_lowercase +:+ digits).

(** The loop of [remote_branch_exists] over the names of the remote refs. *)
Fixpoint ref_name_matches (names : list string) (branch : string) : bool :=
  match names with
  | [] => false
  | name :: rest =>
      if String.eqb name ("origin/" +:+ branch) then true
      else ref_name_matches rest branch
  end.

Definition remote_branch_exists (repo : Repo W) (branch : string) : M W bool :=
  names <- repo_origin_refs repo ;;
  ret (ref_name_matches names branch).

Definition get_head_author (event_name : string) (event_data : pyval)
  : M W (string * string) :=
  if String.eqb event_name "push" then
    email <- lift (format_field event_data "head_commit" ["author"; "email"]) ;;
    name <- lift (format_field event_data "head_commit" ["author"; "name"]) ;;
    ret (email, name)
  else
    actor <- environ_item "GITHUB_ACTOR" ;;
    actor' <- environ_item "GITHUB_ACTOR" ;;
    ret (actor +:+ "@users.noreply.github.com", actor').

Definition set_git_config (git : git_call → M W string) (email name : string)
  : M W unit :=
  git (GitConfigGlobal "user.email" (dquote +:+ email +:+ dquote)) ;;;
  git (GitConfigGlobal "user.name" (dquote +:+ name +:+ dquote)) ;;;
  ret tt.

Definition set_git_remote_url (git : git_call → M W string)
  (token github_repository : string) : M W unit :=
  git (GitRemoteSetUrl "origin"
         ("https://x-access-token:" +:+ token +:+ "@github.com/"
            +:+ github_repository)) ;;;
  ret tt.

Definition checkout_branch (git : git_call → M W string) (remote_exists : bool)
  (branch : string) : M W unit :=
  if remote_exists then
    git GitStashIncludeUntracked ;;;
    git (GitCheckout branch) ;;;
    try_except
      (git GitStashPop ;;; ret tt)
      (git (GitCheckoutTheirs ".") ;;;
       git GitReset ;;;
       ret tt)
  else
    git (GitCheckoutNew "HEAD" branch) ;;;
    ret tt.

Definition push_changes (git : git_call → M W string)
  (branch commit_message : string) : M W string :=
  git GitAddAll ;;;
  git (GitCommit commit_message) ;;;
  git (GitPushForce "origin" branch).

Definition cs_string_to_list (str : string) : list string :=
  filter (λ i, str_nonempty i = true) (map str_strip (str_split ","%char str)).

Definition process_event (event_name : string) (event_data : pyval)
  (repo : Repo W) (branch base : string) (remote_exists : bool) : M W unit :=
  github_token <- environ_item "GITHUB_TOKEN" ;;
  github_repository <- environ_item "GITHUB_REPOSITORY" ;;
  let commit_message :=
    getenv "COMMIT_MESSAGE"
      "Auto-committed changes by create-pull-request action" in
  let title :=
    getenv "PULL_REQUEST_TITLE"
      "Auto-generated by create-pull-request action" in
  let body :=
    getenv "PULL_REQUEST_BODY"
      ("Auto-generated pull request by "
       +:+ "[create-pull-request](https://github.com/peter-evans/create-pull-request) GitHub Action") in
  let pull_request_labels := environ !! "PULL_REQUEST_LABELS" in
  let pull_request_assignees := environ !! "PULL_REQUEST_ASSIGNEES" in
  let pull_request_milestone := environ !! "PULL_REQUEST_MILESTONE" in
  let pull_request_reviewers := environ !! "PULL_REQUEST_REVIEWERS" in
  let pull_request_team_reviewers := environ !! "PULL_REQUEST_TEAM_REVIEWERS" in
  set_git_remote_url (repo_git repo) github_token github_repository ;;;
  print "Pushing changes." ;;;
  push_result <- push_changes (repo_git repo) branch commit_message ;;
  print push_result ;;;
  (if remote_exists then
     print ("Updated pull request branch " +:+ branch +:+ ".") ;;;
     sys_exit
   else ret tt) ;;;
  print ("Creating a request to pull " +:+ branch +:+ " into " +:+ base +:+ ".") ;;;
  github_repo <- run_hub (HubGetRepo github_token github_repository) ;;
  pull_request <- run_hub (HubCreatePull github_repo title body base branch) ;;
  print ("Created pull request " +:+ pretty pull_request +:+ ".") ;;;
  emit (AShell ("echo ::set-env name=PULL_REQUEST_NUMBER::" +:+ pretty pull_request)) ;;;
  match pull_request_labels with
  | Some labels =>
      print "Applying labels" ;;;
      issue <- run_hub (HubAsIssue pull_request) ;;
      run_hub (HubEditLabels issue (cs_string_to_list labels)) ;;;
      ret tt
  | None => ret tt
  end ;;;
  match pull_request_assignees with
  | Some assignees =>
      print "Applying assignees" ;;;
      issue <- run_hub (HubAsIssue pull_request) ;;
      run_hub (HubEditAssignees issue (cs_string_to_list assignees)) ;;;
      ret tt
  | None => ret tt
  end ;;;
  match pull_request_milestone with
  | Some number =>
      print "Applying milestone" ;;;
      n <- match sys_int sys number with
           | Some n => ret n
           | None => raise ValueError
           end ;;
      milestone <- run_hub (HubGetMilestone github_repo n) ;;
      issue <- run_hub (HubAsIssue pull_request) ;;
      run_hub (HubEditMilestone issue milestone) ;;;
      ret tt
  | None => ret tt
  end ;;;
  match pull_request_reviewers with
  | Some reviewers =>
      print "Requesting reviewers" ;;;
      run_hub (HubRequestReviewers pull_request (cs_string_to_list reviewers)) ;;;
      ret tt
  | None => ret tt
  end ;;;
  match pull_request_team_reviewers with
  | Some team_reviewers =>
      print "Requesting team reviewers" ;;;
      run_hub (HubRequestTeamReviewers pull_request
                 (cs_string_to_list team_reviewers)) ;;;
      ret tt
  | None => ret tt
  end.

(** The suffix chain of the script body: the name is left as it is when
    BRANCH_SUFFIX is none of the three strategies. *)
Definition resolve_branch_name (repo : Repo W) (branch branch_suffix : string)
  : M W string :=
  if String.eqb branch_suffix "short-commit-hash" then
    sha <- get_head_short_sha1 repo ;;
    ret (branch +:+ "-" +:+ sha)
  else if String.eqb branch_suffix "timestamp" then
    now <- query (sys_time sys) ATime ;;
    ret (branch +:+ "-" +:+ pretty now)
  else if String.eqb branch_suffix "random" then
    suffix <- get_random_suffix ;;
    ret (branch +:+ "-" +:+ suffix)
  else ret branch.

(** The condition of the module-level [if]:
    [skip_ignore_event or not ignore_event(event_name, event_data)].  The
    [or] does not evaluate its right operand when the left one is true. *)
Definition event_gate (event_name : string) (event_data : pyval) : M W bool :=
  let skip_ignore_event := py_bool_of_env (environ !! "SKIP_IGNORE") in
  if skip_ignore_event then ret true
  else ignored <- ignore_event event_name event_data ;;
       ret (negb ignored).

(** The last statement of the script: the check for changes to pull
    request.  [or] asks for the untracked files only when the repository is
    not dirty. *)
Definition publish_if_changed (event_name : string) (event_data : pyval)
  (repo : Repo W) (branch base : string) (remote_exists : bool) : M W unit :=
  dirty <- repo_is_dirty repo ;;
  changed <- (if dirty : bool then ret true
              else untracked <- repo_untracked_files repo ;;
                   ret (0 <? length untracked)%nat) ;;
  if changed : bool then
    print "Repository has modified or untracked files." ;;;
    process_event event_name event_data repo branch base remote_exists
  else
    print "Repository has no modified or untracked files. Skipping.".

(** The body of the module-level [if]. *)
Definition main_body (event_name : string) (event_data : pyval) : M W unit :=
  repo <- open_repo ;;
  let branch := getenv "PULL_REQUEST_BRANCH" "create-pull-request/patch" in
  github_ref <- environ_item "GITHUB_REF" ;;
  let base := str_drop 11 github_ref in
  if String.prefix branch base then
    print ("Branch '" +:+ base +:+ "' was created by this action. Skipping.") ;;;
    sys_exit
  else
    let branch_suffix := getenv "BRANCH_SUFFIX" "short-commit-hash" in
    branch <- resolve_branch_name repo branch branch_suffix ;;
    remote_exists <- remote_branch_exists repo branch ;;
    if String.eqb branch_suffix "short-commit-hash" && remote_exists then
      print ("Pull request branch '" +:+ branch
             +:+ "' already exists for this commit. Skipping.") ;;;
      sys_exit
    else
      set_git_config (repo_git repo) "openosrs.github@gmail.com" "OpenOSRS" ;;;
      checkout_branch (repo_git repo) remote_exists branch ;;;
      publish_if_changed event_name event_data repo branch base remote_exists.

(** The module-level code of the script. *)
Definition main : M W unit :=
  event_name <- environ_item "GITHUB_EVENT_NAME" ;;
  github_event_path <- environ_item "GITHUB_EVENT_PATH" ;;
  event_data <- get_github_event github_event_path ;;
  go <- event_gate event_name event_data ;;
  if go : bool then main_body event_name event_data
  else ret tt.

End Script.

(** ** A model of the git commands behind [checkout_branch]

    The five commands [checkout_branch] issues on the existing-branch path,
    over a repository reduced to what they read and write: the tree of the
    commit checked out, the files on disk, the trees of the branches known
    under a name, the stash and the unmerged entries of the index.  Nothing
    is staged when the script starts, so the tracked files are the paths of
    the commit checked out and every other file on disk is untracked; no
    file is ignored.

    [git stash --include-untracked] saves the tracked files as they are on
    disk and, apart from them, the untracked files.  [git stash pop] merges
    the tracked part three ways: the base is the commit the stash was made
    on, the first side ("ours", index stage 2) is what is checked out now and
    the second side ("theirs", index stage 3) is the stashed tracked files.
    It then puts the untracked files back (after the merge, as git does
    since version 2.33), and fails for each one whose path is taken on disk,
    leaving that file as it is.  [git checkout --theirs
    <pathspec>] writes stage 3 of every unmerged path to disk, refuses when
    one of them has no stage 3, and checks the other tracked paths out from
    the index.  [git reset] clears the unmerged entries and leaves the files
    alone.  A path that one side left as the base has it, or that both sides
    changed alike, merges without a look at its content; a path that one
    side deleted and the other changed conflicts; the merge of two different
    texts is a parameter, so that nothing depends on how git merges the text
    of a file.  A file is known by its path: a file the branch has moved is
    a file deleted and a file added. *)

Module MiniGit.

Inductive merged : Type :=
| Merged (content : option string)
| Conflict.

Global Instance merged_eq_dec : EqDecision merged.
Proof. solve_decision. Defined.

Record repo : Type := {
  head_tree : gmap string string;
  work_tree : gmap string string;
  branches : gmap string (gmap string string);
  stash : list (gmap string string * gmap string string);
  unmerged : gmap string (option string)
}.

(** Of the files saved on a commit, those the commit tracks. *)
Definition tracked_of (base saved : gmap string string) : gmap string string :=
  filter (λ kv, is_Some (base !! kv.1)) saved.

(** Of the files saved on a commit, those the commit does not track. *)
Definition untracked_of (base saved : gmap string string) : gmap string string :=
  filter (λ kv, base !! kv.1 = None) saved.

Section Commands.
Context (merge3 : option string → option string → option string → merged).
Context (markers : option string → option string → option string).

(** The merge of one path, from what the base and the two sides hold
    there. *)
Definition merge_path (b o t : option string) : merged :=
  if decide (o = t) then Merged o
  else if decide (t = b) then Merged o
  else if decide (o = b) then Merged t
  else match o, t with
       | Some _, Some _ => merge3 b o t
       | _, _ => Conflict
       end.

(** The outcome of the merge for every path present in one of the trees. *)
Definition merge_paths (base ours theirs : gmap string string)
  : gmap string merged :=
  merge (λ bo t, Some (merge_path (bo ≫= fst) (bo ≫= snd) t))
        (merge (λ b o, Some (b, o)) base ours) theirs.

Definition is_conflict (m : merged) : bool :=
  match m with
  | Conflict => true
  | Merged _ => false
  end.

Definition has_conflict (m : gmap string merged) : bool :=
  negb (bool_decide (map_Forall (λ _ x, is_conflict x = false) m)).

(** stash --include-untracked: refused while paths are unmerged; nothing is
    saved when there is nothing to save; otherwise the files on disk go to
    the stash, the tracked files go back to the commit checked out and the
    untracked files are removed. *)
Definition stash_push (r : repo) : option string * repo :=
  if decide (unmerged r = ∅) then
    if decide (work_tree r = head_tree r) then
      (Some "No local changes to save", r)
    else
      (Some "Saved working directory and index state",
       {| head_tree := head_tree r;
          work_tree := head_tree r;
          branches := branches r;
          stash := (head_tree r, work_tree r) :: stash r;
          unmerged := unmerged r |})
  else (None, r).

(** checkout <branch>: fails on an unknown name, over local changes and
    while paths are unmerged. *)
Definition checkout (branch : string) (r : repo) : option string * repo :=
  match branches r !! branch with
  | Some t =>
      if decide (work_tree r = head_tree r ∧ unmerged r = ∅) then
        (Some "",
         {| head_tree := t;
            work_tree := t;
            branches := branches r;
            stash := stash r;
            unmerged := unmerged r |})
      else (None, r)
  | None => (None, r)
  end.

(** What the merge of a stash leaves on disk: its result for the paths it
    covers, conflict markers where it conflicts, and the other files as they
    were. *)
Definition merged_files (r : repo) (theirs : gmap string string)
  (m : gmap string merged) : gmap string string :=
  map_imap (λ p x, match x with
                   | Merged c => c
                   | Conflict => markers (head_tree r !! p) (theirs !! p)
                   end) m
  ∪ filter (λ kv, m !! kv.1 = None) (work_tree r).

(** The unmerged entries a merge leaves, each with its stage 3. *)
Definition conflict_entries (theirs : gmap string string)
  (m : gmap string merged) : gmap string (option string) :=
  map_imap (λ p x, match x with
                   | Merged _ => None
                   | Conflict => Some (theirs !! p)
                   end) m.

(** An untracked file of the stash whose path is taken on disk. *)
Definition collides (on_disk extra : gmap string string) : bool :=
  negb (bool_decide (map_Forall (λ p (_ : string), on_disk !! p = None) extra)).

(** stash pop.  The tracked files of the stash are merged into the commit
    checked out, then its untracked files are put back where the path is
    free.  The command succeeds, and drops the stash entry, when no path
    conflicts and no untracked file finds its path taken; otherwise it fails
    and keeps the entry, the conflicting paths becoming unmerged.  It is run
    on a tree whose tracked files are unchanged, as [checkout_branch] does
    right after a checkout. *)
Definition stash_pop (r : repo) : option string * repo :=
  match stash r with
  | [] => (None, r)
  | (base, saved) :: rest =>
      let theirs := tracked_of base saved in
      let extra := untracked_of base saved in
      let m := merge_paths base (head_tree r) theirs in
      let on_disk := merged_files r theirs m in
      if has_conflict m || collides on_disk extra then
        (None,
         {| head_tree := head_tree r;
            work_tree := on_disk ∪ extra;
            branches := branches r;
            stash := stash r;
            unmerged := conflict_entries theirs m |})
      else
        (Some "",
         {| head_tree := head_tree r;
            work_tree := on_disk ∪ extra;
            branches := branches r;
            stash := rest;
            unmerged := unmerged r |})
  end.

(** The merge the pop of [checkout_branch] performs, from a repository [r]
    with local changes and a branch whose tree is [target]: the stash was
    made on the commit of [r], the branch is checked out, and the stashed
    side is the tracked files of [r] as they were on disk. *)
Definition pop_merge (r : repo) (target : gmap string string)
  : gmap string merged :=
  merge_paths (head_tree r) target (tracked_of (head_tree r) (work_tree r)).


(** checkout --theirs <pathspec>, for a pathspec covering the repository.
    Unmerged paths get their stage 3.  The other tracked paths are checked
    out from the index: while paths are unmerged the index holds what the
    merge wrote to disk, so those files stay; otherwise the index is the
    commit checked out, and local changes to tracked files are undone. *)
Definition checkout_theirs (r : repo) : option string * repo :=
  if bool_decide (map_Forall (λ (_ : string) (stage3 : option string),
                                is_Some stage3) (unmerged r)) then
    (Some "",
     {| head_tree := head_tree r;
        work_tree :=
          omap id (unmerged r)
          ∪ (if decide (unmerged r = ∅) then head_tree r ∪ work_tree r
             else work_tree r);
        branches := branches r;
        stash := stash r;
        unmerged := unmerged r |})
  else (None, r).

(** reset (mixed, to HEAD) *)
Definition reset (r : repo) : option string * repo :=
  (Some "",
   {| head_tree := head_tree r;
      work_tree := work_tree r;
      branches := branches r;
      stash := stash r;
      unmerged := ∅ |}).

Definition exec (c : git_call) (r : repo) : option string * repo :=
  match c with
  | GitStashIncludeUntracked => stash_push r
  | GitCheckout branch => checkout branch r
  | GitStashPop => stash_pop r
  | GitCheckoutTheirs _ => checkout_theirs r
  | GitReset => reset r
  | _ => (Some "", r)
  end.

(** The commands as a [System]; the other collaborators play no part in
    [checkout_branch] and answer nothing. *)
Definition system : System repo :=
  {| sys_load_event := λ _ _, None;
     sys_load_failure := λ _ _, CannotOpen;
     sys_dumps := λ _, "";
     sys_int := λ _, None;
     sys_open_repo := λ _, true;
     sys_git := exec;
     sys_origin_refs := λ r, (λ b, "origin/" +:+ b) <$> elements (dom (branches r));
     sys_is_dirty := λ r,
       bool_decide (tracked_of (head_tree r) (work_tree r) ≠ head_tree r
                    ∨ unmerged r ≠ ∅);
     sys_untracked_files := λ r,
       elements (dom (untracked_of (head_tree r) (work_tree r)));
     sys_time := λ _, 0;
     sys_randbelow := λ _ r, (O, r);
     sys_hub := λ _ r, (None, r) |}.

End Commands.

(** A merge that treats the content of a file as a whole: a side that did
    not change the file gives way to the other, and two different changes
    conflict, whatever the texts. *)
Definition merge3_whole (b o t : option string) : merged :=
  if decide (o = t) then Merged o
  else if decide (t = b) then Merged o
  else if decide (o = b) then Merged t
  else Conflict.

(** What a conflict leaves on disk: both versions between markers, or the
    surviving version when the other side deleted the file. *)
Definition markers_whole (o t : option string) : option string :=
  match o, t with
  | Some ours, Some theirs =>
      Some ("<<<<<<< Updated upstream" +:+ ours +:+ "=======" +:+ theirs
            +:+ ">>>>>>> Stashed changes")
  | Some ours, None => Some ours
  | None, _ => t
  end.


(** The same, with [x.txt] deleted locally: the conflicting path has no
    stage 3. *)
Definition delete_repo : repo :=
  {| head_tree := {[ "x.txt" := "base" ]};
     work_tree := ∅;
     branches := {[ "create-pull-request/patch-abc1234" := {[ "x.txt" := "remote" ]} ]};
     stash := [];
     unmerged := ∅ |}.

(** [x.txt] is a new file on disk, not tracked by the commit checked out,
    and the existing branch tracks a file of that name; [t.txt] is tracked
    and changed locally only. *)
Definition untracked_repo : repo :=
  {| head_tree := {[ "t.txt" := "base" ]};
     work_tree := {[ "t.txt" := "local"; "x.txt" := "local" ]};
     branches := {[ "create-pull-request/patch-abc1234"
                    := {[ "t.txt" := "base"; "x.txt" := "remote" ]} ]};
     stash := [];
     unmerged := ∅ |}.

(** The same, with a new file [x.txt] that holds what the branch's file
    holds. *)
Definition identical_repo : repo :=
  {| head_tree := {[ "t.txt" := "base" ]};
     work_tree := {[ "t.txt" := "base"; "x.txt" := "remote" ]};
     branches := {[ "create-pull-request/patch-abc1234"
                    := {[ "t.txt" := "base"; "x.txt" := "remote" ]} ]};
     stash := [];
     unmerged := ∅ |}.

End MiniGit.

(** ** A model of [git rev-parse --short HEAD]

    The command prints a prefix of the full name of the commit checked out.
    How long a prefix is git's choice, not the script's: seven characters in
    a small repository, more once the repository holds so many objects that
    git abbreviates longer ([core.abbrev], [auto] unless configured), or
    when the shorter prefix names another object as well. *)

Module ShortHash.

Record objects : Type := {
  head_sha1 : string;   (* the forty hexadecimal digits of HEAD *)
  abbrev : nat          (* the length git abbreviates this name to *)
}.

Definition rev_parse_short (r : objects) : string :=
  String.substring 0 (abbrev r) (head_sha1 r).

Definition exec (c : git_call) (r : objects) : option string * objects :=
  match c with
  | GitRevParseShortHead => (Some (rev_parse_short r), r)
  | _ => (Some "", r)
  end.

(** The command as a [System]; the other collaborators play no part in the
    naming of the branch and answer nothing. *)
Definition system : System objects :=
  {| sys_load_event := λ _ _, None;
     sys_load_failure := λ _ _, CannotOpen;
     sys_dumps := λ _, "";
     sys_int := λ _, None;
     sys_open_repo := λ _, true;
     sys_git := exec;
     sys_origin_refs := λ _, [];
     sys_is_dirty := λ _, false;
     sys_untracked_files := λ _, [];
     sys_time := λ _, 0;
     sys_randbelow := λ _ r, (O, r);
     sys_hub := λ _ r, (None, r) |}.

(** One commit in a small repository, and the same commit once the
    repository has grown: git then prints eight characters. *)
Definition small_repository : objects :=
  {| head_sha1 := "6400967e5f3c1a2b4d6e8f0a1b3c5d7e9f0a2b4c"; abbrev := 7 |}.

Definition grown_repository : objects :=
  {| head_sha1 := "6400967e5f3c1a2b4d6e8f0a1b3c5d7e9f0a2b4c"; abbrev := 8 |}.

End ShortHash.

(** ** A scripted world

    A world without state whose answers are fixed in advance; it serves to
    run the script on concrete inputs. *)

Record Script : Type := {
  scr_event : option pyval;
  scr_open_repo : bool;
  scr_git : git_call → option string;
  scr_refs : list string;
  scr_dirty : bool;
  scr_untracked : list string;
  scr_time : Z;
  scr_rand : nat → nat;
  scr_hub : hub_call → option Z
}.

Fixpoint decimal_digits (acc : Z) (s : string) : option Z :=
  match s with
  | EmptyString => Some acc
  | String c s' =>
      let n := nat_of_ascii c in
      if ((48 <=? n) && (n <=? 57))%nat
      then decimal_digits (10 * acc + Z.of_nat (n - 48)) s'
      else None
  end.

(** Decimal literals made of digits only, the part of Python's [int] the
    scripted world knows. *)
Definition decimal_int (s : string) : option Z :=
  if str_nonempty s then decimal_digits 0 s else None.

Definition scripted (x : Script) : System unit :=
  {| sys_load_event := λ _ _, scr_event x;
     sys_load_failure := λ _ _, CannotOpen;
     sys_dumps := py_str;
     sys_int := decimal_int;
     sys_open_repo := λ _, scr_open_repo x;
     sys_git := λ c w, (scr_git x c, w);
     sys_origin_refs := λ _, scr_refs x;
     sys_is_dirty := λ _, scr_dirty x;
     sys_untracked_files := λ _, scr_untracked x;
     sys_time := λ _, scr_time x;
     sys_randbelow := λ n w, (scr_rand x n, w);
     sys_hub := λ c w, (scr_hub x c, w) |}.

(** The same world with an event file that opens and does not hold JSON. *)
Definition not_json (x : Script) : System unit :=
  {| sys_load_event := λ _ _, None;
     sys_load_failure := λ _ _, NotJson;
     sys_dumps := py_str;
     sys_int := decimal_int;
     sys_open_repo := λ _, scr_open_repo x;
     sys_git := λ c w, (scr_git x c, w);
     sys_origin_refs := λ _, scr_refs x;
     sys_is_dirty := λ _, scr_dirty x;
     sys_untracked_files := λ _, scr_untracked x;
     sys_time := λ _, scr_time x;
     sys_randbelow := λ n w, (scr_rand x n, w);
     sys_hub := λ c w, (scr_hub x c, w) |}.

(** The push event of a commit on [main], authored by somebody else than the
    identity the script configures. *)
Definition push_event (ref : string) (deleted : bool) : pyval :=
  PyDict "{...}"
    (PyItem "ref" (PyStr ref)
    (PyItem "deleted" (PyBool deleted)
    (PyItem "head_commit"
       (PyDict "{...}"
          (PyItem "author"
             (PyDict "{...}"
                (PyItem "email" (PyStr "alice@example.com")
                (PyItem "name" (PyStr "Alice") PyNil)))
           PyNil))
     PyNil))).

Definition git_all_ok (c : git_call) : option string :=
  match c with
  | GitRevParseShortHead => Some "abc1234"
  | _ => Some ""
  end.

Definition git_pop_conflict (c : git_call) : option string :=
  match c with
  | GitStashPop => None
  | _ => git_all_ok c
  end.

(** Three gits that fail on one command each: the first [git config], the
    checkout of an existing branch, the commit. *)
Definition git_email_fails (c : git_call) : option string :=
  match c with
  | GitConfigGlobal key _ =>
      if String.eqb key "user.email" then None else Some ""
  | _ => git_all_ok c
  end.

Definition git_checkout_fails (c : git_call) : option string :=
  match c with
  | GitCheckout _ => None
  | _ => git_all_ok c
  end.

Definition git_commit_fails (c : git_call) : option string :=
  match c with
  | GitCommit _ => None
  | _ => git_all_ok c
  end.

Definition hub_all_ok (c : hub_call) : option Z :=
  match c with
  | HubGetRepo _ _ => Some 1
  | HubCreatePull _ _ _ _ _ => Some 42
  | HubAsIssue pull => Some pull
  | HubGetMilestone _ n => Some n
  | _ => Some 0
  end.

Definition base_environ : gmap string string :=
  {[ "GITHUB_EVENT_NAME" := "push";
     "GITHUB_EVENT_PATH" := "/github/workflow/event.json";
     "GITHUB_REF" := "refs/heads/main";
     "GITHUB_TOKEN" := "t0ken";
     "GITHUB_REPOSITORY" := "owner/repo" ]}.

Definition base_script : Script :=
  {| scr_event := Some (push_event "refs/heads/main" false);
     scr_open_repo := true;
     scr_git := git_all_ok;
     scr_refs := ["origin/main"];
     scr_dirty := true;
     scr_untracked := [];
     scr_time := 1572800000;
     scr_rand := λ n, 5%nat;
     scr_hub := hub_all_ok |}.

(** The same world on a checkout of a branch the action created. *)
Definition own_branch_environ : gmap string string :=
  <["GITHUB_REF" := "refs/heads/create-pull-request/patch-abc1234"]> base_environ.

(** The same world once the branch of the commit is on the remote. *)
Definition rerun_script : Script :=
  {| scr_event := Some (push_event "refs/heads/main" false);
     scr_open_repo := true;
     scr_git := git_all_ok;
     scr_refs := ["origin/main"; "origin/create-pull-request/patch-abc1234"];
     scr_dirty := true;
     scr_untracked := [];
     scr_time := 1572800000;
     scr_rand := λ n, 5%nat;
     scr_hub := hub_all_ok |}.

(** The same world with every metadata field configured. *)
Definition full_environ : gmap string string :=
  <["PULL_REQUEST_LABELS" := "bug, automated"]>
  (<["PULL_REQUEST_ASSIGNEES" := "alice"]>
  (<["PULL_REQUEST_MILESTONE" := "3"]>
  (<["PULL_REQUEST_REVIEWERS" := "bob,carol"]>
  (<["PULL_REQUEST_TEAM_REVIEWERS" := "core"]> base_environ)))).

(** A world that remembers what was pushed: its state is the list of the
    remote references, and a push adds the reference of the branch. *)
Definition remembering : System (list string) :=
  {| sys_load_event := λ _ _, Some (push_event "refs/heads/main" false);
     sys_load_failure := λ _ _, CannotOpen;
     sys_dumps := py_str;
     sys_int := decimal_int;
     sys_open_repo := λ _, true;
     sys_git := λ c refs,
       match c with
       | GitPushForce remote branch =>
           (Some "", (refs ++ [remote +:+ "/" +:+ branch])%list)
       | _ => (git_all_ok c, refs)
       end;
     sys_origin_refs := λ refs, refs;
     sys_is_dirty := λ _, true;
     sys_untracked_files := λ _, [];
     sys_time := λ _, 0;
     sys_randbelow := λ _ refs, (O, refs);
     sys_hub := λ c refs, (hub_all_ok c, refs) |}.

(** The same world with nothing to publish. *)
Definition clean_script : Script :=
  {| scr_event := Some (push_event "refs/heads/main" false);
     scr_open_repo := true;
     scr_git := git_all_ok;
     scr_refs := ["origin/main"];
     scr_dirty := false;
     scr_untracked := [];
     scr_time := 1572800000;
     scr_rand := λ n, 5%nat;
     scr_hub := hub_all_ok |}.

(** ** What a computation adds to the log *)

(** [post m Q]: from every state, [m] only appends to the log, and what it
    appends together with its result satisfies [Q]. *)
Definition post {W A} (m : M W A) (Q : list action → outcome A → Prop) : Prop :=
  ∀ s, ∃ d, (m s).2.2 = (s.2 ++ d)%list ∧ Q d (m s).1.

(** [emits P m]: every entry [m] logs satisfies [P]. *)
Definition emits {W A} (P : action → Prop) (m : M W A) : Prop :=
  post m (λ d _, Forall P d).

(** The result and the log of a run started in world [w] with an empty
    log. *)
Definition run {W A} (m : M W A) (w : W) : outcome A * list action :=
  ((m (w, [])).1, (m (w, [])).2.2).

(** Entries that publish: staging, committing, pushing, and every call to
    the hosting API. *)
Definition is_publish (a : action) : bool :=
  match a with
  | AGit GitAddAll | AGit (GitCommit _) | AGit (GitPushForce _ _) => true
  | AHub _ => true
  | _ => false
  end.

(** Entries that leave the repository and the hosting API alone and do not
    resolve a branch name: opening the event, opening the repository and
    printing. *)
Definition is_quiet (a : action) : bool :=
  match a with
  | AOpenEvent _ | AOpenRepo | APrint _ => true
  | _ => false
  end.

Definition is_config (a : action) : bool :=
  match a with
  | AGit (GitConfigGlobal _ _) => true
  | _ => false
  end.


Definition is_create_pull (a : action) : bool :=
  match a with
  | AHub (HubCreatePull _ _ _ _ _) => true
  | _ => false
  end.

Definition is_hub (a : action) : bool :=
  match a with
  | AHub _ => true
  | _ => false
  end.

Definition is_dirty_query (a : action) : bool :=
  match a with
  | AIsDirty _ => true
  | _ => false
  end.

(** Entries that only look things up: the quiet ones, asking git for the
    abbreviated hash of HEAD, and listing the remote references. *)
Definition is_lookup (a : action) : bool :=
  match a with
  | AGit GitRevParseShortHead | ARefs _ => true
  | _ => is_quiet a
  end.

Definition is_untracked_query (a : action) : bool :=
  match a with
  | AUntracked _ => true
  | _ => false
  end.

(** ** The steps of the pull request orchestrator, as the specification
    words them

    Creating the pull request with its base and head, then one step per
    metadata field. *)
Inductive step : Type :=
| StepCreate (base head : string)
| StepLabels (labels : list string)
| StepAssignees (assignees : list string)
| StepMilestone
| StepReviewers (reviewers : list string)
| StepTeamReviewers (team_reviewers : list string).

(** The step a log entry carries out, if any. *)
Definition step_of (a : action) : option step :=
  match a with
  | AHub (HubCreatePull _ _ _ base head) => Some (StepCreate base head)
  | AHub (HubEditLabels _ labels) => Some (StepLabels labels)
  | AHub (HubEditAssignees _ assignees) => Some (StepAssignees assignees)
  | AHub (HubEditMilestone _ _) => Some StepMilestone
  | AHub (HubRequestReviewers _ reviewers) => Some (StepReviewers reviewers)
  | AHub (HubRequestTeamReviewers _ team_reviewers) =>
      Some (StepTeamReviewers team_reviewers)
  | _ => None
  end.

Definition steps_of (log : list action) : list step := omap step_of log.

Definition step_if_present (v : option string) (f : list string → step)
  : list step :=
  match v with
  | Some text => [f (cs_string_to_list text)]
  | None => []
  end.

(** The steps a run on a new branch is to take: the pull request from
    [head] into [base], then labels, assignees, milestone, reviewers and team
    reviewers, each one exactly when its variable is present. *)
Definition configured_steps (environ : gmap string string) (base head : string)
  : list step :=
  (StepCreate base head
   :: step_if_present (environ !! "PULL_REQUEST_LABELS") StepLabels
   ++ step_if_present (environ !! "PULL_REQUEST_ASSIGNEES") StepAssignees
   ++ match environ !! "PULL_REQUEST_MILESTONE" with
      | Some _ => [StepMilestone]
      | None => []
      end
   ++ step_if_present (environ !! "PULL_REQUEST_REVIEWERS") StepReviewers
   ++ step_if_present (environ !! "PULL_REQUEST_TEAM_REVIEWERS") StepTeamReviewers)%list.

(** No command and no API call fails, the two required variables are set
    and the milestone, when configured, is an integer. *)
Definition nothing_fails {W} (sys : System W) (environ : gmap string string)
  : Prop :=
  (∀ c w, (sys_git sys c w).1 ≠ None)
  ∧ (∀ c w, (sys_hub sys c w).1 ≠ None)
  ∧ environ !! "GITHUB_TOKEN" ≠ None
  ∧ environ !! "GITHUB_REPOSITORY" ≠ None
  ∧ (∀ v, environ !! "PULL_REQUEST_MILESTONE" = Some v → sys_int sys v ≠ None).

(** [framed P Q m]: [Q] holds of what [m] appends, behind any entries
    satisfying [P]. *)
Definition framed {W A} (P : action → Prop)
  (Q : list action → outcome A → Prop) (m : M W A) : Prop :=
  post m (λ d r, ∀ d0, Forall P d0 → Q (d0 ++ d)%list r).

(** ** Predicates on strings and on log entries used by the further
    properties *)

(** White space only, in the sense of [str.isspace] on every character. *)
Definition str_all_space (s : string) : bool :=
  forallb py_isspace (list_ascii_of_string s).

(** The string holds a comma. *)
Definition str_has_comma (s : string) : bool :=
  existsb (λ c, Ascii.eqb c ","%char) (list_ascii_of_string s).

(** What an item of a comma separated list looks like once
    [cs_string_to_list] has returned it. *)
Definition item_is_clean (x : string) : Prop :=
  str_nonempty x = true ∧ str_strip x = x ∧ str_has_comma x = false.

(** A string that starts and ends with something else than white space. *)
Definition trimmed (x : string) : Prop :=
  (∃ c x', x = String c x' ∧ py_isspace c = false)
  ∧ (∃ d y, String.rev x = String d y ∧ py_isspace d = false).

Definition is_push (a : action) : bool :=
  match a with
  | AGit (GitPushForce _ _) => true
  | _ => false
  end.

(** Reading the log from its start: no call to the hosting API before a
    push has been seen. *)
Fixpoint api_after_push (pushed : bool) (log : list action) : bool :=
  match log with
  | [] => true
  | a :: rest =>
      if is_hub a then pushed && api_after_push pushed rest
      else api_after_push (pushed || is_push a) rest
  end.

Definition is_refs_query (a : action) : bool :=
  match a with
  | ARefs _ => true
  | _ => false
  end.

(** A world where the configured branch name, taken without suffix, is
    already on the remote. *)
Definition fixed_name_environ : gmap string string :=
  <["BRANCH_SUFFIX" := "none"]> base_environ.

Definition fixed_name_script : Script :=
  {| scr_event := Some (push_event "refs/heads/main" false);
     scr_open_repo := true;
     scr_git := git_all_ok;
     scr_refs := ["origin/main"; "origin/create-pull-request/patch"];
     scr_dirty := true;
     scr_untracked := [];
     scr_time := 1572800000;
     scr_rand := λ n, 5%nat;
     scr_hub := hub_all_ok |}.

(** * Properties *)

(** ** Rules for [post] *)

Section Rules.
Context {W : Type}.

Lemma post_mono {A} (m : M W A) (Q Q' : list action → outcome A → Prop) :
  post m Q → (∀ d r, Q d r → Q' d r) → post m Q'.
Proof.
  intros Hm Himp s. destruct (Hm s) as (d & Hd & HQ).
  exists d. split; [exact Hd | now apply Himp].
Qed.

Lemma post_ret {A} (a : A) (Q : list action → outcome A → Prop) :
  Q [] (Val a) → post (ret (W:=W) a) Q.
Proof. intros HQ s. exists []. simpl. now rewrite app_nil_r. Qed.

Lemma post_raise {A} (e : exn) (Q : list action → outcome A → Prop) :
  Q [] (Raise e) → post (raise (W:=W) e) Q.
Proof. intros HQ s. exists []. simpl. now rewrite app_nil_r. Qed.

Lemma post_lift {A} (o : outcome A) (Q : list action → outcome A → Prop) :
  Q [] o → post (lift (W:=W) o) Q.
Proof. intros HQ s. exists []. simpl. now rewrite app_nil_r. Qed.

Lemma post_emit (a : action) (Q : list action → outcome unit → Prop) :
  Q [a] (Val tt) → post (emit (W:=W) a) Q.
Proof. intros HQ s. exists [a]. simpl. auto. Qed.

Lemma post_query {A} (f : W → A) (entry : A → action)
  (Q : list action → outcome A → Prop) :
  (∀ a, Q [entry a] (Val a)) → post (query f entry) Q.
Proof. intros HQ s. exists [entry (f s.1)]. simpl. auto. Qed.

Lemma post_effect {A} (f : W → A * W) (entry : A → action)
  (Q : list action → outcome A → Prop) :
  (∀ a, Q [entry a] (Val a)) → post (effect f entry) Q.
Proof.
  intros HQ s. unfold effect. destruct (f s.1) as [a w'] eqn:E.
  exists [entry a]. simpl. auto.
Qed.

Lemma post_bind {A B} (m : M W A) (k : A → M W B)
  (Q : list action → outcome B → Prop) :
  post m (λ d1 r, match r with
                  | Val a => post (k a) (λ d2 r', Q (d1 ++ d2)%list r')
                  | Raise e => Q d1 (Raise e)
                  end) →
  post (bind m k) Q.
Proof.
  intros Hm s. destruct (Hm s) as (d1 & Hd1 & HQ1). unfold bind.
  destruct (m s) as [[a | e] s'] eqn:E; simpl in *.
  - destruct (HQ1 s') as (d2 & Hd2 & HQ2).
    exists (d1 ++ d2)%list. rewrite Hd2, Hd1, app_assoc. auto.
  - exists d1. auto.
Qed.

Lemma post_try {A} (body handler : M W A)
  (Q : list action → outcome A → Prop) :
  post body (λ d1 r, match r with
                     | Val a => Q d1 (Val a)
                     | Raise _ => post handler (λ d2 r', Q (d1 ++ d2)%list r')
                     end) →
  post (try_except body handler) Q.
Proof.
  intros Hm s. destruct (Hm s) as (d1 & Hd1 & HQ1). unfold try_except.
  destruct (body s) as [[a | e] s'] eqn:E; simpl in *.
  - exists d1. auto.
  - destruct (HQ1 s') as (d2 & Hd2 & HQ2).
    exists (d1 ++ d2)%list. rewrite Hd2, Hd1, app_assoc. auto.
Qed.

(** Sequencing with a computation known only through what it emits. *)
Lemma post_bind_emits {A B} (P : action → Prop) (m : M W A) (k : A → M W B)
  (Q : list action → outcome B → Prop) :
  emits P m →
  (∀ d e, Forall P d → Q d (Raise e)) →
  (∀ a, post (k a) (λ d2 r, ∀ d1, Forall P d1 → Q (d1 ++ d2)%list r)) →
  post (bind m k) Q.
Proof.
  intros Hm Hraise Hk. apply post_bind.
  eapply post_mono; [exact Hm |]. intros d1 [a | e] Hd1; simpl.
  - eapply post_mono; [apply Hk |]. intros d2 r H. now apply H.
  - now apply Hraise.
Qed.

Lemma emits_mono {A} (P P' : action → Prop) (m : M W A) :
  emits P m → (∀ a, P a → P' a) → emits P' m.
Proof.
  intros Hm Himp. eapply post_mono; [exact Hm |].
  intros d r Hd. simpl in *. eapply Forall_impl; eauto.
Qed.

Lemma emits_ret {A} (P : action → Prop) (a : A) : emits P (ret (W:=W) a).
Proof. apply post_ret. constructor. Qed.

Lemma emits_raise {A} (P : action → Prop) (e : exn) :
  emits P (raise (W:=W) (A:=A) e).
Proof. apply post_raise. constructor. Qed.

Lemma emits_lift {A} (P : action → Prop) (o : outcome A) :
  emits P (lift (W:=W) o).
Proof. apply post_lift. constructor. Qed.

Lemma emits_emit (P : action → Prop) (a : action) :
  P a → emits P (emit (W:=W) a).
Proof. intros Ha. apply post_emit. auto. Qed.

Lemma emits_query {A} (P : action → Prop) (f : W → A) (entry : A → action) :
  (∀ a, P (entry a)) → emits P (query f entry).
Proof. intros Ha. apply post_query. auto. Qed.

Lemma emits_effect {A} (P : action → Prop) (f : W → A * W) (entry : A → action) :
  (∀ a, P (entry a)) → emits P (effect f entry).
Proof. intros Ha. apply post_effect. auto. Qed.

Lemma emits_bind {A B} (P : action → Prop) (m : M W A) (k : A → M W B) :
  emits P m → (∀ a, emits P (k a)) → emits P (bind m k).
Proof.
  intros Hm Hk. apply post_bind. eapply post_mono; [exact Hm |].
  intros d1 [a | e] Hd1; simpl; [| exact Hd1].
  eapply post_mono; [apply Hk |]. intros d2 r Hd2. simpl in *. apply Forall_app; auto.
Qed.

Lemma emits_try {A} (P : action → Prop) (body handler : M W A) :
  emits P body → emits P handler → emits P (try_except body handler).
Proof.
  intros Hb Hh. apply post_try. eapply post_mono; [exact Hb |].
  intros d1 [a | e] Hd1; simpl; [exact Hd1 |].
  eapply post_mono; [exact Hh |]. intros d2 r Hd2. simpl in *. apply Forall_app; auto.
Qed.

(** What [post] says about a run from the empty log. *)
Lemma post_run {A} (m : M W A) (Q : list action → outcome A → Prop) (w : W) :
  post m Q → Q (run m w).2 (run m w).1.
Proof.
  intros Hm. destruct (Hm (w, [])) as (d & Hd & HQ).
  unfold run. simpl in *. now rewrite Hd.
Qed.

End Rules.

(** ** The event classifier *)

Lemma ignore_event_not_push {W} (event_name : string) (event_data : pyval)
  (s : W * list action) :
  event_name ≠ "push" → ignore_event event_name event_data s = (Val false, s).
Proof.
  intros Hne. unfold ignore_event.
  destruct (String.eqb_spec event_name "push") as [-> | _]; [congruence | reflexivity].
Qed.

Lemma ignore_event_push_deleted {W} (text : string) (items : pyitems)
  (s : W * list action) :
  py_dict_get "deleted" items = Some (PyBool true) →
  ignore_event "push" (PyDict text items) s
  = (Val true, (s.1, (s.2 ++ [APrint "Ignoring delete branch event."])%list)).
Proof.
  intros Hd. unfold ignore_event, lift, format_field, bind. simpl.
  rewrite Hd. reflexivity.
Qed.

Lemma ignore_event_push_ref {W} (text : string) (items : pyitems)
  (deleted : bool) (ref : string) (s : W * list action) :
  py_dict_get "deleted" items = Some (PyBool deleted) →
  py_dict_get "ref" items = Some (PyStr ref) →
  (ignore_event "push" (PyDict text items) s).1
  = Val (deleted || negb (String.prefix "refs/heads/" ref)).
Proof.
  intros Hd Hr. unfold ignore_event, lift, format_field, bind. simpl.
  rewrite Hd. destruct deleted; simpl; [reflexivity |].
  rewrite Hr. simpl. now destruct (String.prefix "refs/heads/" ref).
Qed.

(** C3.  The classifier on the events of the claim: a push whose [deleted]
    is true is ignored; a push whose [ref] does not start with
    [refs/heads/] is ignored, whatever [deleted] is; a push of
    [refs/heads/main] that is not a deletion is not ignored and nothing is
    printed; an event that is not a push is never ignored, whatever its
    payload. *)
Theorem ignore_event_classifies {W} (s : W * list action) :
  (∀ text items,
      py_dict_get "deleted" items = Some (PyBool true) →
      (ignore_event "push" (PyDict text items) s).1 = Val true)
  ∧ (∀ text items deleted ref,
      py_dict_get "deleted" items = Some (PyBool deleted) →
      py_dict_get "ref" items = Some (PyStr ref) →
      String.prefix "refs/heads/" ref = false →
      (ignore_event "push" (PyDict text items) s).1 = Val true)
  ∧ (∀ text items,
      py_dict_get "deleted" items = Some (PyBool false) →
      py_dict_get "ref" items = Some (PyStr "refs/heads/main") →
      ignore_event "push" (PyDict text items) s = (Val false, s))
  ∧ (∀ event_name event_data,
      event_name ≠ "push" →
      ignore_event event_name event_data s = (Val false, s)).
Proof.
  repeat split.
  - intros text items Hd. now rewrite ignore_event_push_deleted.
  - intros text items deleted ref Hd Hr Hp.
    rewrite (ignore_event_push_ref text items deleted ref s Hd Hr), Hp.
    now destruct deleted.
  - intros text items Hd Hr. unfold ignore_event, lift, format_field, bind.
    simpl. rewrite Hd. simpl. rewrite Hr. reflexivity.
  - intros event_name event_data Hne. now apply ignore_event_not_push.
Qed.

Lemma ignore_event_classifies_witness :
  (ignore_event (W:=unit) "push" (push_event "refs/heads/main" true) (tt, [])).1
  = Val true
  ∧ (ignore_event (W:=unit) "push" (push_event "refs/tags/v1.0" false) (tt, [])).1
    = Val true
  ∧ ignore_event (W:=unit) "push" (push_event "refs/heads/main" false) (tt, [])
    = (Val false, (tt, []))
  ∧ ignore_event (W:=unit) "workflow_dispatch" (push_event "refs/tags/v1.0" true)
      (tt, [])
    = (Val false, (tt, [])).
Proof.
  destruct (ignore_event_classifies (W:=unit) (tt, [])) as (H1 & H2 & H3 & H4).
  split; [| split; [| split]].
  - apply H1. reflexivity.
  - apply (H2 _ _ false "refs/tags/v1.0"); reflexivity.
  - apply H3; reflexivity.
  - apply H4. discriminate.
Defined.

(** ** The remote branch locator *)

Lemma ref_name_matches_iff (names : list string) (branch : string) :
  ref_name_matches names branch = true ↔ ("origin/" +:+ branch) ∈ names.
Proof.
  induction names as [| name rest IH]; simpl.
  - split; [discriminate | intros H; inversion H].
  - destruct (String.eqb_spec name ("origin/" +:+ branch)) as [-> | Hne].
    + split; [intros _; apply list_elem_of_here | reflexivity].
    + rewrite IH. split.
      * intros H. now apply list_elem_of_further.
      * intros H. inversion H; subst; [congruence | assumption].
Qed.

(** C6.  [remote_branch_exists] answers true exactly when one of the remote
    references is named ["origin/" + branch], by equality of strings; it
    asks the repository for its references once and hands the world on
    unchanged. *)
Theorem remote_branch_exists_exact {W} (sys : System W) (branch : string)
  (w : W) (log : list action) :
  ∃ b : bool,
    remote_branch_exists (repo_object sys) branch (w, log)
    = (Val b, (w, (log ++ [ARefs (sys_origin_refs sys w)])%list))
    ∧ (b = true ↔ ("origin/" +:+ branch) ∈ sys_origin_refs sys w).
Proof.
  exists (ref_name_matches (sys_origin_refs sys w) branch).
  split; [reflexivity | apply ref_name_matches_iff].
Qed.

(** A name that only shares a prefix with a reference does not match. *)
Example remote_branch_exists_no_prefix_match :
  ref_name_matches ["origin/create-pull-request/patch-abc1234"; "origin/main"]
    "create-pull-request/patch" = false
  ∧ ref_name_matches ["origin/create-pull-request/patch-abc1234"; "origin/main"]
      "create-pull-request/patch-abc1234" = true.
Proof. split; reflexivity. Qed.

(** ** The bypass flag of the classifier *)

Lemma py_bool_of_env_true (v : option string) :
  py_bool_of_env v = true ↔ ∃ s, v = Some s ∧ s ≠ "".
Proof.
  destruct v as [[| c s] |]; simpl; split; try discriminate.
  - intros (s & [= <-] & Hne). congruence.
  - intros _. exists (String c s). split; [reflexivity | discriminate].
  - intros _. reflexivity.
  - intros (s & H & _). discriminate.
Qed.

Lemma main_unfold {W} (sys : System W) (environ : gmap string string)
  (event_name path : string) (event_data : pyval) (s s0 : W * list action) :
  environ !! "GITHUB_EVENT_NAME" = Some event_name →
  environ !! "GITHUB_EVENT_PATH" = Some path →
  get_github_event sys environ path s = (Val event_data, s0) →
  main sys environ s
  = bind (event_gate environ event_name event_data)
      (λ go : bool, if go then main_body sys environ event_name event_data
                    else ret tt) s0.
Proof.
  intros Hn Hp Hev. unfold main, environ_item. rewrite Hn, Hp.
  unfold bind at 1. simpl. unfold bind at 1. simpl.
  unfold bind at 1. rewrite Hev. reflexivity.
Qed.

(** C10.  The bypass flag is the truth value of the string SKIP_IGNORE: any
    non-empty value, ["false"] and ["0"] among them, makes the gate true
    without the classifier being run, so the body of the script runs
    whatever the event is; with the variable unset or empty the classifier
    decides. *)
Theorem skip_ignore_is_string_truthiness {W} (sys : System W)
  (environ : gmap string string) (event_name path : string)
  (event_data : pyval) (s s0 : W * list action) :
  environ !! "GITHUB_EVENT_NAME" = Some event_name →
  environ !! "GITHUB_EVENT_PATH" = Some path →
  get_github_event sys environ path s = (Val event_data, s0) →
  (∀ v, environ !! "SKIP_IGNORE" = Some v → v ≠ "" →
        event_gate environ event_name event_data s0 = (Val true, s0)
        ∧ main sys environ s = main_body sys environ event_name event_data s0)
  ∧ (environ !! "SKIP_IGNORE" = None ∨ environ !! "SKIP_IGNORE" = Some "" →
     main sys environ s
     = bind (ignore_event event_name event_data)
         (λ ignored : bool,
            if ignored then ret tt
            else main_body sys environ event_name event_data) s0)
  ∧ py_bool_of_env (Some "false") = true
  ∧ py_bool_of_env (Some "0") = true.
Proof.
  intros Hn Hp Hev. rewrite (main_unfold sys environ _ _ _ s s0 Hn Hp Hev).
  split; [| split; [| split; reflexivity]].
  - intros v Hv Hne. split.
    + unfold event_gate. rewrite Hv. destruct v; [congruence | reflexivity].
    + unfold event_gate, bind. rewrite Hv.
      destruct v; [congruence | reflexivity].
  - intros Hskip. unfold event_gate, bind.
    assert (py_bool_of_env (environ !! "SKIP_IGNORE") = false) as ->
      by (destruct Hskip as [-> | ->]; reflexivity).
    destruct (ignore_event event_name event_data s0) as [[[|] | e] s1];
      reflexivity.
Qed.

(** A deleted-branch push, which the classifier ignores, is processed when
    SKIP_IGNORE is the string ["false"]. *)
Lemma skip_ignore_is_string_truthiness_witness :
  (ignore_event (W:=unit) "push" (push_event "refs/heads/main" true)
     (tt, [AOpenEvent "/github/workflow/event.json"])).1 = Val true
  ∧ main (scripted
            {| scr_event := Some (push_event "refs/heads/main" true);
               scr_open_repo := true; scr_git := git_all_ok;
               scr_refs := []; scr_dirty := false; scr_untracked := [];
               scr_time := 0; scr_rand := λ _, O; scr_hub := hub_all_ok |})
      (<["SKIP_IGNORE" := "false"]> base_environ) (tt, [])
    = main_body (scripted
            {| scr_event := Some (push_event "refs/heads/main" true);
               scr_open_repo := true; scr_git := git_all_ok;
               scr_refs := []; scr_dirty := false; scr_untracked := [];
               scr_time := 0; scr_rand := λ _, O; scr_hub := hub_all_ok |})
        (<["SKIP_IGNORE" := "false"]> base_environ) "push"
        (push_event "refs/heads/main" true)
        (tt, [AOpenEvent "/github/workflow/event.json"]).
Proof.
  split; [reflexivity |].
  refine (proj2 (proj1 (skip_ignore_is_string_truthiness _ _ "push"
            "/github/workflow/event.json" _ _ _ _ _ _) "false" _ _));
    first [reflexivity | discriminate].
Defined.

(** ** The branch namer *)

Lemma string_get_in (s : string) (i : nat) :
  (i < String.length s)%nat →
  ∃ c, String.get i s = Some c ∧ In c (list_ascii_of_string s).
Proof.
  revert i. induction s as [| c s IH]; simpl; intros i Hi; [lia |].
  destruct i as [| i].
  - exists c. auto.
  - destruct (IH i) as (c' & Hget & Hin); [lia |]. exists c'. auto.
Qed.

Lemma random_choice_in {W} (sys : System W) (chars : string)
  (s : W * list action) :
  chars ≠ "" →
  ∃ c s', random_choice sys chars s = (Val c, s')
          ∧ In c (list_ascii_of_string chars).
Proof.
  intros Hne. unfold random_choice.
  destruct (String.length chars =? 0)%nat eqn:Hlen.
  { apply Nat.eqb_eq in Hlen. destruct chars; [congruence | discriminate]. }
  unfold bind, effect.
  destruct (sys_randbelow sys (String.length chars) s.1) as [i w'].
  destruct (string_get_in chars (i mod String.length chars)) as (c & Hget & Hin).
  { apply Nat.mod_upper_bound. destruct chars; [congruence | discriminate]. }
  rewrite Hget. eauto.
Qed.

Lemma get_random_suffix_of_spec {W} (sys : System W) (size : nat)
  (chars : string) (s : W * list action) :
  chars ≠ "" →
  ∃ suffix s',
    get_random_suffix_of sys size chars s = (Val suffix, s')
    ∧ String.length suffix = size
    ∧ Forall (λ c, In c (list_ascii_of_string chars))
        (list_ascii_of_string suffix).
Proof.
  intros Hne. revert s. induction size as [| size IH]; intros s; simpl.
  - exists EmptyString, s. repeat split. constructor.
  - destruct (random_choice_in sys chars s Hne) as (c & s1 & Hc & Hin).
    destruct (IH s1) as (rest & s2 & Hrest & Hlen & Hall).
    exists (String c rest), s2. unfold bind at 1. rewrite Hc.
    unfold bind at 1. rewrite Hrest. simpl. repeat split; auto.
Qed.

Lemma string_length_append (a b : string) :
  String.length (a +:+ b) = (String.length a + String.length b)%nat.
Proof. induction a as [| c a IH]; simpl; [reflexivity | now rewrite IH]. Qed.

Lemma resolve_short_commit_hash {W} (sys : System W) (base : string)
  (w : W) (log : list action) (sha : string) (w' : W) :
  sys_git sys GitRevParseShortHead w = (Some sha, w') →
  resolve_branch_name sys (repo_object sys) base "short-commit-hash" (w, log)
  = (Val (base +:+ "-" +:+ sha), (w', (log ++ [AGit GitRevParseShortHead])%list)).
Proof.
  intros Hgit. unfold resolve_branch_name, get_head_short_sha1. simpl.
  unfold run_git, bind, effect. simpl. rewrite Hgit. reflexivity.
Qed.

Lemma substring_length (n : nat) (s : string) :
  (n ≤ String.length s)%nat → String.length (String.substring 0 n s) = n.
Proof.
  revert s. induction n as [| n IH]; intros [| c s]; simpl; intros Hn;
    try reflexivity; try lia.
  rewrite IH; [reflexivity | lia].
Qed.

(** C5, as the code has it.  Under [short-commit-hash] the resolved name is
    the base, a dash and the abbreviated hash of HEAD exactly as
    [git rev-parse --short HEAD] prints it, whatever its length: the script
    neither cuts nor pads it.  Two runs resolve to the same name exactly when
    git prints the same abbreviation in both.  With git printing a prefix of
    the full hash, the suffix has as many characters as git abbreviates to,
    so seven only while git abbreviates to seven, and two runs on the same
    commit agree when git abbreviates to the same length in both.  Under
    [random] the resolved name is the base, a dash and seven characters,
    each taken from the thirty-six lowercase letters and digits. *)
Theorem resolve_branch_name_spec :
  (∀ W (sys : System W) base w log sha w',
      sys_git sys GitRevParseShortHead w = (Some sha, w') →
      resolve_branch_name sys (repo_object sys) base "short-commit-hash" (w, log)
      = (Val (base +:+ "-" +:+ sha), (w', (log ++ [AGit GitRevParseShortHead])%list)))
  ∧ (∀ W1 W2 (sys1 : System W1) (sys2 : System W2) base w1 w2 log1 log2
       sha1 sha2 w1' w2',
      sys_git sys1 GitRevParseShortHead w1 = (Some sha1, w1') →
      sys_git sys2 GitRevParseShortHead w2 = (Some sha2, w2') →
      ((resolve_branch_name sys1 (repo_object sys1) base "short-commit-hash" (w1, log1)).1
       = (resolve_branch_name sys2 (repo_object sys2) base "short-commit-hash" (w2, log2)).1
       ↔ sha1 = sha2))
  ∧ (∀ base (r : ShortHash.objects) log,
      (ShortHash.abbrev r ≤ String.length (ShortHash.head_sha1 r))%nat →
      ∃ sha,
        resolve_branch_name ShortHash.system (repo_object ShortHash.system)
          base "short-commit-hash" (r, log)
        = (Val (base +:+ "-" +:+ sha),
           (r, (log ++ [AGit GitRevParseShortHead])%list))
        ∧ sha = String.substring 0 (ShortHash.abbrev r) (ShortHash.head_sha1 r)
        ∧ String.length sha = ShortHash.abbrev r)
  ∧ (∀ base (r1 r2 : ShortHash.objects) log1 log2,
      ShortHash.head_sha1 r1 = ShortHash.head_sha1 r2 →
      ShortHash.abbrev r1 = ShortHash.abbrev r2 →
      (resolve_branch_name ShortHash.system (repo_object ShortHash.system)
         base "short-commit-hash" (r1, log1)).1
      = (resolve_branch_name ShortHash.system (repo_object ShortHash.system)
           base "short-commit-hash" (r2, log2)).1)
  ∧ (∀ W (sys : System W) base s,
      ∃ suffix s',
        resolve_branch_name sys (repo_object sys) base "random" s
        = (Val (base +:+ "-" +:+ suffix), s')
        ∧ String.length suffix = 7%nat
        ∧ Forall (λ c, In c (list_ascii_of_string
                               "abcdefghijklmnopqrstuvwxyz0123456789"))
            (list_ascii_of_string suffix))
  ∧ String.length (ascii_lowercase +:+ digits) = 36%nat.
Proof.
  split; [| split; [| split; [| split; [| split]]]].
  - intros W sys base w log sha w' Hgit.
    now apply resolve_short_commit_hash.
  - intros W1 W2 sys1 sys2 base w1 w2 log1 log2 sha1 sha2 w1' w2' H1 H2.
    rewrite (resolve_short_commit_hash sys1 base w1 log1 sha1 w1' H1),
      (resolve_short_commit_hash sys2 base w2 log2 sha2 w2' H2).
    simpl. split.
    + intros [= H]. apply String.app_inj in H. now apply String.app_inj in H.
    + now intros ->.
  - intros base r log Hlen. exists (ShortHash.rev_parse_short r).
    split; [| split].
    + now apply resolve_short_commit_hash.
    + reflexivity.
    + now apply substring_length.
  - intros base r1 r2 log1 log2 Hsha Hlen.
    rewrite (resolve_short_commit_hash ShortHash.system base r1 log1
               (ShortHash.rev_parse_short r1) r1 eq_refl),
      (resolve_short_commit_hash ShortHash.system base r2 log2
               (ShortHash.rev_parse_short r2) r2 eq_refl).
    unfold ShortHash.rev_parse_short. now rewrite Hsha, Hlen.
  - intros W sys base s. unfold resolve_branch_name. simpl.
    destruct (get_random_suffix_of_spec sys 7 (ascii_lowercase +:+ digits) s)
      as (suffix & s' & Hrun & Hlen & Hall); [discriminate |].
    exists suffix, s'. unfold bind, get_random_suffix. rewrite Hrun. auto.
  - reflexivity.
Qed.

Lemma resolve_branch_name_spec_witness :
  resolve_branch_name (scripted base_script) (repo_object (scripted base_script))
    "patch" "short-commit-hash" (tt, [])
  = (Val "patch-abc1234", (tt, [AGit GitRevParseShortHead]))
  ∧ ∃ sha,
      resolve_branch_name ShortHash.system (repo_object ShortHash.system)
        "patch" "short-commit-hash" (ShortHash.small_repository, [])
      = (Val ("patch" +:+ "-" +:+ sha),
         (ShortHash.small_repository, [AGit GitRevParseShortHead]))
      ∧ sha = "6400967"
      ∧ String.length sha = 7%nat.
Proof.
  split.
  - apply (proj1 resolve_branch_name_spec unit (scripted base_script) "patch"
             tt [] "abc1234" tt).
    reflexivity.
  - apply (proj1 (proj2 (proj2 resolve_branch_name_spec)) "patch"
             ShortHash.small_repository []).
    simpl. lia.
Defined.

(** The claim of seven characters and of one name per commit, refuted: for
    one and the same HEAD, git prints seven characters in the small
    repository and eight in the grown one, so the second name has an
    eight-character suffix and the two runs resolve to different names. *)
Lemma resolve_branch_name_not_per_commit :
  ShortHash.head_sha1 ShortHash.small_repository
  = ShortHash.head_sha1 ShortHash.grown_repository
  ∧ resolve_branch_name ShortHash.system (repo_object ShortHash.system)
      "create-pull-request/patch" "short-commit-hash"
      (ShortHash.small_repository, [])
    = (Val "create-pull-request/patch-6400967",
       (ShortHash.small_repository, [AGit GitRevParseShortHead]))
  ∧ resolve_branch_name ShortHash.system (repo_object ShortHash.system)
      "create-pull-request/patch" "short-commit-hash"
      (ShortHash.grown_repository, [])
    = (Val "create-pull-request/patch-6400967e",
       (ShortHash.grown_repository, [AGit GitRevParseShortHead]))
  ∧ String.length "6400967e" ≠ 7%nat
  ∧ (resolve_branch_name ShortHash.system (repo_object ShortHash.system)
       "create-pull-request/patch" "short-commit-hash"
       (ShortHash.small_repository, [])).1
    ≠ (resolve_branch_name ShortHash.system (repo_object ShortHash.system)
         "create-pull-request/patch" "short-commit-hash"
         (ShortHash.grown_repository, [])).1.
Proof.
  split; [reflexivity | split; [reflexivity | split; [reflexivity | split]]].
  - discriminate.
  - discriminate.
Qed.

(** The random suffix in the scripted world whose generator always answers
    5: seven times the sixth character. *)
Example get_random_suffix_run :
  (get_random_suffix (scripted base_script) (tt, [])).1 = Val "fffffff".
Proof. reflexivity. Qed.

(** ** Entries of the log of a whole run *)

Lemma open_repo_post {W} (sys : System W) :
  post (open_repo sys)
    (λ d r, d = [AOpenRepo]
            ∧ (r = Val (repo_object sys) ∨ r = Raise InvalidGitRepositoryError)).
Proof.
  intros s. exists [AOpenRepo]. unfold open_repo, bind, query. simpl.
  destruct (sys_open_repo sys s.1); simpl; auto.
Qed.

Lemma emits_bind_open_repo {W B} (sys : System W) (P : action → Prop)
  (k : Repo W → M W B) :
  P AOpenRepo → emits P (k (repo_object sys)) →
  emits P (bind (open_repo sys) k).
Proof.
  intros HP Hk. apply post_bind. eapply post_mono; [apply open_repo_post |].
  intros d r [-> [-> | ->]]; simpl.
  - eapply post_mono; [exact Hk |]. intros d2 r2 H. simpl in *.
    constructor; auto.
  - constructor; auto.
Qed.

Lemma emits_get_random_suffix_of {W} (sys : System W) (P : action → Prop)
  (size : nat) (chars : string) :
  (∀ n i, P (ARandBelow n i)) → emits P (get_random_suffix_of sys size chars).
Proof.
  intros HP. induction size as [| size IH]; simpl.
  - apply emits_ret.
  - apply emits_bind.
    + unfold random_choice.
      destruct (String.length chars =? 0)%nat; [apply emits_raise |].
      apply emits_bind.
      * apply emits_effect. auto.
      * intros i. destruct (String.get _ _); [apply emits_ret | apply emits_raise].
    + intros c. apply emits_bind; [exact IH | intros rest; apply emits_ret].
Qed.

Ltac head_of t :=
  lazymatch t with
  | ?f _ => head_of f
  | _ => t
  end.

(** Takes a goal [emits P m] apart along the syntax of [m], down to one goal
    [P a] for every entry [m] can log. *)
Ltac emits_step :=
  cbn [repo_git repo_origin_refs repo_is_dirty repo_untracked_files repo_object];
  lazymatch goal with
  | |- emits _ (bind (open_repo _) _) => apply emits_bind_open_repo
  | |- emits _ (bind _ _) => apply emits_bind; [| intros ?]
  | |- emits _ (try_except _ _) => apply emits_try
  | |- emits _ (ret _) => apply emits_ret
  | |- emits _ (raise _) => apply emits_raise
  | |- emits _ sys_exit => apply emits_raise
  | |- emits _ (lift _) => apply emits_lift
  | |- emits _ (emit _) => apply emits_emit
  | |- emits _ (print _) => apply emits_emit
  | |- emits _ (query _ _) => apply emits_query; intros ?
  | |- emits _ (effect _ _) => apply emits_effect; intros ?
  | |- emits _ (get_random_suffix_of _ _ _) =>
      apply emits_get_random_suffix_of; intros ? ?
  | |- emits _ (if ?b then _ else _) => destruct b
  | |- emits _ (match ?x with _ => _ end) => destruct x
  | |- emits _ ?m => let h := head_of m in unfold h
  end.

Ltac emits_auto := repeat emits_step.

(** ** Rules for [framed] *)

Lemma framed_post {W A} (P : action → Prop)
  (Q : list action → outcome A → Prop) (m : M W A) :
  framed P Q m → post m Q.
Proof.
  intros Hm. eapply post_mono; [exact Hm |]. intros d r H.
  apply (H []). constructor.
Qed.

Lemma framed_emits {W A} (P : action → Prop)
  (Q : list action → outcome A → Prop) (m : M W A) :
  (∀ d r, Forall P d → Q d r) → emits P m → framed P Q m.
Proof.
  intros Hclean Hm. eapply post_mono; [exact Hm |]. intros d r Hd d0 Hd0.
  simpl in *. apply Hclean, Forall_app; auto.
Qed.

Lemma framed_bind {W A B} (P : action → Prop)
  (Q : list action → outcome B → Prop) (m : M W A) (k : A → M W B) :
  (∀ d r, Forall P d → Q d r) → emits P m → (∀ a, framed P Q (k a)) →
  framed P Q (bind m k).
Proof.
  intros Hclean Hm Hk. apply (post_bind_emits P); [exact Hm | |].
  - intros d e Hd d0 Hd0. apply Hclean, Forall_app; auto.
  - intros a. eapply post_mono; [apply Hk |]. intros d2 r H d1 Hd1 d0 Hd0.
    rewrite app_assoc. apply H, Forall_app; auto.
Qed.

Lemma framed_bind_open_repo {W B} (sys : System W) (P : action → Prop)
  (Q : list action → outcome B → Prop) (k : Repo W → M W B) :
  (∀ d r, Forall P d → Q d r) → P AOpenRepo →
  framed P Q (k (repo_object sys)) →
  framed P Q (bind (open_repo sys) k).
Proof.
  intros Hclean HP Hk. apply post_bind.
  eapply post_mono; [apply open_repo_post |].
  intros d r [-> [-> | ->]]; simpl.
  - eapply post_mono; [exact Hk |]. intros d2 r2 H d0 Hd0. simpl in *.
    change (d0 ++ AOpenRepo :: d2)%list with (d0 ++ [AOpenRepo] ++ d2)%list.
    rewrite app_assoc. apply H, Forall_app. split; [auto | repeat constructor; auto].
  - intros d0 Hd0. apply Hclean, Forall_app. split; [auto | repeat constructor; auto].
Qed.

(** ** The check for changes *)

Lemma process_event_no_queries {W} (sys : System W)
  (environ : gmap string string) event_name event_data branch base remote_exists :
  emits (λ a, is_dirty_query a = false ∧ is_untracked_query a = false)
    (process_event sys environ event_name event_data (repo_object sys)
       branch base remote_exists).
Proof. emits_auto; split; reflexivity. Qed.

(** The three ways the check can go: dirty, clean with untracked files,
    clean without. *)
Lemma publish_if_changed_post {W} (sys : System W)
  (environ : gmap string string) event_name event_data branch base remote_exists :
  post (publish_if_changed sys environ event_name event_data (repo_object sys)
          branch base remote_exists)
    (λ d r,
       (∃ rest,
           d = AIsDirty true
               :: APrint "Repository has modified or untracked files." :: rest
           ∧ Forall (λ a, is_dirty_query a = false ∧ is_untracked_query a = false) rest)
       ∨ (∃ files rest,
             files ≠ []
             ∧ d = AIsDirty false :: AUntracked files
                   :: APrint "Repository has modified or untracked files." :: rest
             ∧ Forall (λ a, is_dirty_query a = false ∧ is_untracked_query a = false) rest)
       ∨ (d = [AIsDirty false; AUntracked [];
               APrint "Repository has no modified or untracked files. Skipping."]
          ∧ r = Val tt)).
Proof.
  unfold publish_if_changed. cbn [repo_is_dirty repo_untracked_files repo_object].
  apply post_bind, post_query. intros [|].
  - apply post_bind, post_ret. apply post_bind, post_emit.
    eapply post_mono; [apply process_event_no_queries |].
    intros d r Hd. left. exists d. auto.
  - apply post_bind, post_bind, post_query. intros files.
    apply post_ret. destruct files as [| f files]; simpl.
    + apply post_emit. right. right. auto.
    + apply post_bind, post_emit.
      eapply post_mono; [apply process_event_no_queries |].
      intros d r Hd. right. left. exists (f :: files), d. auto.
Qed.

Ltac framed_step :=
  cbn [repo_git repo_origin_refs repo_is_dirty repo_untracked_files repo_object];
  lazymatch goal with
  | |- framed _ _ (publish_if_changed _ _ _ _ _ _ _ _) => fail
  | |- framed _ _ (bind (open_repo _) _) =>
      apply framed_bind_open_repo; [assumption | |]
  | |- framed _ _ (bind _ _) => apply framed_bind; [assumption | | intros ?]
  | |- framed _ _ (if ?b then _ else _) => destruct b
  | |- framed _ _ _ => apply framed_emits; [assumption |]
  end.

Lemma filter_none (f : action → bool) (l : list action) :
  Forall (λ a, f a = false) l → filter (λ a, f a = true) l = [].
Proof.
  induction 1 as [| a l Ha _ IH]; [reflexivity |].
  rewrite filter_cons. destruct (decide (f a = true)); [congruence | exact IH].
Qed.

Lemma Forall_not_elem (P : action → Prop) (l : list action) (a : action) :
  Forall P l → ¬ P a → a ∉ l.
Proof. intros Hl Hna Hin. rewrite Forall_forall in Hl. auto. Qed.

(** C7.  In every run: when the check for changes finds the repository not
    dirty and without untracked files, the run ends normally, with exit
    status 0, on the line saying so, and has neither staged, committed nor
    pushed anything nor called the hosting API; the repository is asked
    whether it is dirty at most once; and a run that has published has been
    told that the repository is dirty or has untracked files. *)
Theorem clean_tree_is_noop {W} (sys : System W) (environ : gmap string string)
  (w : W) :
  (AIsDirty false ∈ (run (main sys environ) w).2 →
   AUntracked [] ∈ (run (main sys environ) w).2 →
   (run (main sys environ) w).1 = Val tt
   ∧ exit_status (run (main sys environ) w).1 = 0
   ∧ Forall (λ a, is_publish a = false) (run (main sys environ) w).2
   ∧ last (run (main sys environ) w).2
     = Some (APrint "Repository has no modified or untracked files. Skipping."))
  ∧ (length (filter (λ a, is_dirty_query a = true) (run (main sys environ) w).2)
     ≤ 1)%nat
  ∧ (Exists (λ a, is_publish a = true) (run (main sys environ) w).2 →
     AIsDirty true ∈ (run (main sys environ) w).2
     ∨ ∃ files, files ≠ [] ∧ AUntracked files ∈ (run (main sys environ) w).2).
Proof.
  set (P0 := λ a, is_dirty_query a = false ∧ is_untracked_query a = false
                  ∧ is_publish a = false).
  set (Q := λ (d : list action) (r : outcome unit),
         (AIsDirty false ∈ d → AUntracked [] ∈ d →
          r = Val tt ∧ exit_status r = 0
          ∧ Forall (λ a, is_publish a = false) d
          ∧ last d = Some (APrint "Repository has no modified or untracked files. Skipping."))
         ∧ (length (filter (λ a, is_dirty_query a = true) d) ≤ 1)%nat
         ∧ (Exists (λ a, is_publish a = true) d →
            AIsDirty true ∈ d ∨ ∃ files, files ≠ [] ∧ AUntracked files ∈ d)).
  assert (Hdq : ∀ d, Forall P0 d → Forall (λ a, is_dirty_query a = false) d)
    by (intros d Hd; eapply Forall_impl; [exact Hd |]; intros a H; apply H).
  assert (Hpub : ∀ d, Forall P0 d → Forall (λ a, is_publish a = false) d)
    by (intros d Hd; eapply Forall_impl; [exact Hd |]; intros a H; apply H).
  assert (Hclean : ∀ d r, Forall P0 d → Q d r).
  { intros d r Hd. split; [| split].
    - intros Hin. exfalso. revert Hin. apply (Forall_not_elem P0); [exact Hd |].
      intros (H & _). discriminate.
    - rewrite filter_none by auto. simpl. lia.
    - intros (a & Hin & Ha)%Exists_exists. apply Hpub in Hd.
      rewrite Forall_forall in Hd. rewrite (Hd a Hin) in Ha. discriminate. }
  change (Q (run (main sys environ) w).2 (run (main sys environ) w).1).
  apply post_run, (framed_post P0). unfold main, main_body.
  repeat framed_step;
    try (emits_auto; repeat split; reflexivity);
    try (repeat split; reflexivity).
  unfold framed. eapply post_mono; [apply publish_if_changed_post |].
  intros d r Hd d0 Hd0.
  destruct Hd as [(rest & -> & Hrest) | [(files & rest & Hne & -> & Hrest) | [-> ->]]].
  - split; [| split].
    + intros Hin. exfalso. apply elem_of_app in Hin as [Hin | Hin].
      * revert Hin. apply (Forall_not_elem P0); [exact Hd0 |].
        intros (H & _). discriminate.
      * do 2 (apply elem_of_cons in Hin as [Hin | Hin]; [discriminate |]).
        revert Hin. apply (Forall_not_elem _ _ _ Hrest). intros (H & _). discriminate.
    + rewrite filter_app, (filter_none is_dirty_query d0) by auto.
      rewrite filter_cons_True by reflexivity.
      rewrite filter_cons_False by discriminate.
      rewrite (filter_none is_dirty_query rest); [simpl; lia |].
      eapply Forall_impl; [exact Hrest |]. intros x Hx. apply Hx.
    + intros _. left. apply elem_of_app. right. apply list_elem_of_here.
  - split; [| split].
    + intros _ Hin. exfalso. apply elem_of_app in Hin as [Hin | Hin].
      * revert Hin. apply (Forall_not_elem P0); [exact Hd0 |].
        intros (_ & H & _). discriminate.
      * apply elem_of_cons in Hin as [Hin | Hin]; [discriminate |].
        apply elem_of_cons in Hin as [Hin | Hin]; [congruence |].
        apply elem_of_cons in Hin as [Hin | Hin]; [discriminate |].
        revert Hin. apply (Forall_not_elem _ _ _ Hrest). intros (_ & H). discriminate.
    + rewrite filter_app, (filter_none is_dirty_query d0) by auto.
      rewrite filter_cons_True by reflexivity.
      do 2 rewrite filter_cons_False by discriminate.
      rewrite (filter_none is_dirty_query rest); [simpl; lia |].
      eapply Forall_impl; [exact Hrest |]. intros x Hx. apply Hx.
    + intros _. right. exists files. split; [exact Hne |].
      apply elem_of_app. right. apply list_elem_of_further, list_elem_of_here.
  - split; [| split].
    + intros _ _. repeat split.
      * apply Forall_app. split; [auto | repeat constructor].
      * change [AIsDirty false; AUntracked [];
                APrint "Repository has no modified or untracked files. Skipping."]
          with ([AIsDirty false; AUntracked []]
                ++ [APrint "Repository has no modified or untracked files. Skipping."])%list.
        rewrite app_assoc. apply last_snoc.
    + rewrite filter_app, (filter_none is_dirty_query d0) by auto. simpl. lia.
    + intros (x & Hin & Ha)%Exists_exists. exfalso.
      apply elem_of_app in Hin as [Hin | Hin].
      * apply Hpub in Hd0. rewrite Forall_forall in Hd0.
        rewrite (Hd0 x Hin) in Ha. discriminate.
      * repeat (apply elem_of_cons in Hin as [-> | Hin]; [discriminate |]).
        inversion Hin.
Qed.

Lemma clean_tree_is_noop_witness :
  (run (main (scripted clean_script) base_environ) tt).1 = Val tt
  ∧ exit_status (run (main (scripted clean_script) base_environ) tt).1 = 0
  ∧ Forall (λ a, is_publish a = false)
      (run (main (scripted clean_script) base_environ) tt).2
  ∧ last (run (main (scripted clean_script) base_environ) tt).2
    = Some (APrint "Repository has no modified or untracked files. Skipping.").
Proof.
  apply (proj1 (clean_tree_is_noop (scripted clean_script) base_environ tt));
    vm_compute;
    repeat first [apply list_elem_of_here | apply list_elem_of_further].
Defined.

(** ** The identity of the commits *)




(** The payload names Alice as the author, [get_head_author] would report
    her, and the run still configures the constant identity. *)
Example git_identity_ignores_head_author :
  (get_head_author (W:=unit) base_environ "push"
     (push_event "refs/heads/main" false) (tt, [])).1
  = Val ("alice@example.com", "Alice")
  ∧ filter (λ a, is_config a = true) (run (main (scripted base_script) base_environ) tt).2
    = [AGit (GitConfigGlobal "user.email" (dquote +:+ "openosrs.github@gmail.com" +:+ dquote));
       AGit (GitConfigGlobal "user.name" (dquote +:+ "OpenOSRS" +:+ dquote))].
Proof. split; vm_compute; reflexivity. Qed.

(** ** The guards of the script body *)

Lemma bind_ret_l {W A B} (a : A) (k : A → M W B) : bind (ret a) k = k a.
Proof. reflexivity. Qed.

Lemma emits_run {W A} (P : action → Prop) (m : M W A) (w : W)
  (r : outcome A) (s : W * list action) :
  emits P m → m (w, []) = (r, s) → Forall P s.2.
Proof.
  intros Hm Hrun. destruct (Hm (w, [])) as (d & Hd & HP).
  rewrite Hrun in Hd. simpl in *. now rewrite Hd.
Qed.

Lemma get_github_event_quiet {W} (sys : System W) (environ : gmap string string)
  (path : string) :
  emits (λ a, is_quiet a = true) (get_github_event sys environ path).
Proof. emits_auto; reflexivity. Qed.

Lemma event_gate_quiet {W} (environ : gmap string string)
  (event_name : string) (event_data : pyval) :
  emits (W:=W) (λ a, is_quiet a = true) (event_gate environ event_name event_data).
Proof. emits_auto; reflexivity. Qed.

(** Where the body starts once the repository has opened and GITHUB_REF is
    set. *)
Lemma main_body_self_reference {W} (sys : System W)
  (environ : gmap string string) (event_name : string) (event_data : pyval)
  (s : W * list action) (ref : string) :
  sys_open_repo sys s.1 = true →
  environ !! "GITHUB_REF" = Some ref →
  String.prefix (getenv environ "PULL_REQUEST_BRANCH" "create-pull-request/patch")
    (str_drop 11 ref) = true →
  main_body sys environ event_name event_data s
  = (Raise SystemExit,
     (s.1, (s.2 ++ [AOpenRepo;
                    APrint ("Branch '" +:+ str_drop 11 ref
                            +:+ "' was created by this action. Skipping.")])%list)).
Proof.
  intros Hopen Href Hprefix. unfold main_body, open_repo, environ_item.
  rewrite Href. unfold bind at 1. unfold bind at 1. unfold query at 1.
  rewrite Hopen. cbn [ret]. unfold bind at 1. cbn [ret].
  rewrite Hprefix. unfold bind, print, emit, sys_exit, raise. simpl.
  now rewrite <- app_assoc.
Qed.

Lemma main_body_self_reference_quiet {W} (sys : System W)
  (environ : gmap string string) (event_name : string) (event_data : pyval)
  (ref : string) :
  environ !! "GITHUB_REF" = Some ref →
  String.prefix (getenv environ "PULL_REQUEST_BRANCH" "create-pull-request/patch")
    (str_drop 11 ref) = true →
  emits (λ a, is_quiet a = true) (main_body sys environ event_name event_data).
Proof.
  intros Href Hprefix. unfold main_body.
  apply emits_bind_open_repo; [reflexivity |].
  unfold environ_item. rewrite Href, bind_ret_l, Hprefix.
  emits_auto; reflexivity.
Qed.

(** C4.  When the configured branch name is a prefix of the branch checked
    out (GITHUB_REF without its first eleven characters), no run resolves a
    branch name, looks at the remote, runs a git command or calls the
    hosting API: it only opens the event and the repository and prints.  A
    run that enters the body of the script with a repository that opens
    stops at the guard with [sys.exit()], exit status 0, right after the
    line saying that the branch was created by this action; a run whose
    event is ignored ends before, normally. *)
Theorem self_reference_guard {W} (sys : System W)
  (environ : gmap string string) (w : W) (ref : string) :
  environ !! "GITHUB_REF" = Some ref →
  String.prefix (getenv environ "PULL_REQUEST_BRANCH" "create-pull-request/patch")
    (str_drop 11 ref) = true →
  Forall (λ a, is_quiet a = true) (run (main sys environ) w).2
  ∧ (∀ event_name path event_data s0 go s1,
        environ !! "GITHUB_EVENT_NAME" = Some event_name →
        environ !! "GITHUB_EVENT_PATH" = Some path →
        get_github_event sys environ path (w, []) = (Val event_data, s0) →
        event_gate environ event_name event_data s0 = (Val go, s1) →
        sys_open_repo sys s1.1 = true →
        exit_status (run (main sys environ) w).1 = 0
        ∧ (go = true →
           main sys environ (w, [])
           = (Raise SystemExit,
              (s1.1, (s1.2 ++ [AOpenRepo;
                               APrint ("Branch '" +:+ str_drop 11 ref
                                       +:+ "' was created by this action. Skipping.")])%list)))
        ∧ (go = false → main sys environ (w, []) = (Val tt, s1))).
Proof.
  intros Href Hprefix. split.
  - apply (post_run (main sys environ) (λ d _, Forall _ d)).
    change (emits (λ a, is_quiet a = true) (main sys environ)).
    unfold main.
    apply emits_bind; [emits_auto; reflexivity | intros event_name].
    apply emits_bind; [emits_auto; reflexivity | intros path].
    apply emits_bind; [emits_auto; reflexivity | intros event_data].
    apply emits_bind; [emits_auto; reflexivity | intros go].
    destruct go; [| apply emits_ret].
    now apply (main_body_self_reference_quiet sys environ _ _ ref).
  - intros event_name path event_data s0 go s1 Hn Hp Hev Hgate Hopen.
    assert (Hmain : main sys environ (w, [])
                    = if go then main_body sys environ event_name event_data s1
                      else (Val tt, s1)).
    { rewrite (main_unfold sys environ _ _ _ _ _ Hn Hp Hev).
      unfold bind at 1. rewrite Hgate. now destruct go. }
    unfold run. rewrite Hmain. destruct go.
    + rewrite (main_body_self_reference sys environ _ _ s1 ref Hopen Href Hprefix).
      repeat split. discriminate.
    + repeat split. discriminate.
Qed.

Lemma self_reference_guard_witness :
  Forall (λ a, is_quiet a = true)
    (run (main (scripted base_script) own_branch_environ) tt).2
  ∧ main (scripted base_script) own_branch_environ (tt, [])
    = (Raise SystemExit,
       (tt, [AOpenEvent "/github/workflow/event.json"; AOpenRepo;
             APrint "Branch 'create-pull-request/patch-abc1234' was created by this action. Skipping."])).
Proof.
  assert (Href : own_branch_environ !! "GITHUB_REF"
                 = Some "refs/heads/create-pull-request/patch-abc1234")
    by reflexivity.
  destruct (self_reference_guard (scripted base_script) own_branch_environ tt
              "refs/heads/create-pull-request/patch-abc1234" Href eq_refl)
    as [Hquiet Hrun].
  split; [exact Hquiet |].
  apply (Hrun "push" "/github/workflow/event.json"
           (push_event "refs/heads/main" false)
           (tt, [AOpenEvent "/github/workflow/event.json"]) true
           (tt, [AOpenEvent "/github/workflow/event.json"]));
    reflexivity.
Defined.

Lemma is_lookup_not_publish (a : action) :
  is_lookup a = true → is_publish a = false ∧ is_create_pull a = false.
Proof. destruct a as [[] | | | | | | | | | |]; simpl; intros; auto; discriminate. Qed.

Lemma main_body_existing_branch {W} (sys : System W)
  (environ : gmap string string) (event_name : string) (event_data : pyval)
  (s : W * list action) (ref sha : string) (w' : W) :
  sys_open_repo sys s.1 = true →
  environ !! "GITHUB_REF" = Some ref →
  String.prefix (getenv environ "PULL_REQUEST_BRANCH" "create-pull-request/patch")
    (str_drop 11 ref) = false →
  getenv environ "BRANCH_SUFFIX" "short-commit-hash" = "short-commit-hash" →
  sys_git sys GitRevParseShortHead s.1 = (Some sha, w') →
  ("origin/" +:+ getenv environ "PULL_REQUEST_BRANCH" "create-pull-request/patch"
     +:+ "-" +:+ sha) ∈ sys_origin_refs sys w' →
  main_body sys environ event_name event_data s
  = (Raise SystemExit,
     (w', (s.2 ++ [AOpenRepo; AGit GitRevParseShortHead;
                   ARefs (sys_origin_refs sys w');
                   APrint ("Pull request branch '"
                           +:+ (getenv environ "PULL_REQUEST_BRANCH"
                                  "create-pull-request/patch"
                                +:+ "-" +:+ sha)
                           +:+ "' already exists for this commit. Skipping.")])%list)).
Proof.
  intros Hopen Href Hprefix Hsuffix Hgit Hin.
  apply ref_name_matches_iff in Hin.
  unfold main_body, open_repo, environ_item.
  rewrite Href. unfold bind at 1. unfold bind at 1. unfold query at 1.
  rewrite Hopen. cbn [ret]. unfold bind at 1. cbn [ret].
  rewrite Hprefix, Hsuffix. unfold bind at 1.
  rewrite (resolve_short_commit_hash sys _ _ _ sha w' Hgit).
  unfold bind at 1. unfold remote_branch_exists, bind at 1.
  cbn [repo_origin_refs repo_object query fst snd ret].
  rewrite Hin. simpl.
  unfold bind, print, emit, sys_exit, raise. simpl.
  now rewrite <- !app_assoc.
Qed.

(** C2.  A run that enters the body of the script past the self-reference
    guard with the strategy [short-commit-hash], and finds the resolved name
    among the remote references, stops there with [sys.exit()], exit status
    0, on the line saying that the branch already exists for this commit.
    Its log holds nothing but lookups: no checkout, no commit, no push and
    no call to the hosting API, so no pull request is created. *)
Theorem existing_branch_short_circuit {W} (sys : System W)
  (environ : gmap string string) (w : W) (event_name path : string)
  (event_data : pyval) (s0 s1 : W * list action) (ref sha : string) (w' : W) :
  environ !! "GITHUB_EVENT_NAME" = Some event_name →
  environ !! "GITHUB_EVENT_PATH" = Some path →
  get_github_event sys environ path (w, []) = (Val event_data, s0) →
  event_gate environ event_name event_data s0 = (Val true, s1) →
  sys_open_repo sys s1.1 = true →
  environ !! "GITHUB_REF" = Some ref →
  String.prefix (getenv environ "PULL_REQUEST_BRANCH" "create-pull-request/patch")
    (str_drop 11 ref) = false →
  getenv environ "BRANCH_SUFFIX" "short-commit-hash" = "short-commit-hash" →
  sys_git sys GitRevParseShortHead s1.1 = (Some sha, w') →
  ("origin/" +:+ getenv environ "PULL_REQUEST_BRANCH" "create-pull-request/patch"
     +:+ "-" +:+ sha) ∈ sys_origin_refs sys w' →
  main sys environ (w, [])
  = (Raise SystemExit,
     (w', (s1.2 ++ [AOpenRepo; AGit GitRevParseShortHead;
                    ARefs (sys_origin_refs sys w');
                    APrint ("Pull request branch '"
                            +:+ (getenv environ "PULL_REQUEST_BRANCH"
                                   "create-pull-request/patch"
                                 +:+ "-" +:+ sha)
                            +:+ "' already exists for this commit. Skipping.")])%list))
  ∧ exit_status (run (main sys environ) w).1 = 0
  ∧ Forall (λ a, is_lookup a = true ∧ is_publish a = false
                 ∧ is_create_pull a = false)
      (run (main sys environ) w).2.
Proof.
  intros Hn Hp Hev Hgate Hopen Href Hprefix Hsuffix Hgit Hin.
  assert (Hmain : main sys environ (w, [])
                  = main_body sys environ event_name event_data s1).
  { rewrite (main_unfold sys environ _ _ _ _ _ Hn Hp Hev).
    unfold bind at 1. now rewrite Hgate. }
  unfold run. rewrite Hmain.
  rewrite (main_body_existing_branch sys environ _ _ s1 ref sha w'
             Hopen Href Hprefix Hsuffix Hgit Hin).
  split; [reflexivity | split; [reflexivity |]]. simpl.
  assert (Hs1 : Forall (λ a, is_quiet a = true) s1.2).
  { destruct s0 as [w0 t0].
    pose proof (emits_run _ _ _ _ _ (get_github_event_quiet sys environ path) Hev)
      as Ht0.
    destruct (event_gate_quiet (W:=W) environ event_name event_data (w0, t0))
      as (d & Hd & Hq).
    rewrite Hgate in Hd. simpl in *. rewrite Hd. apply Forall_app. auto. }
  apply Forall_app. split.
  - eapply Forall_impl; [exact Hs1 |]. intros a Ha.
    assert (is_lookup a = true) as Hl by (destruct a as [[] | | | | | | | | | |]; auto).
    split; [exact Hl | now apply is_lookup_not_publish].
  - repeat constructor.
Qed.

Lemma existing_branch_short_circuit_witness :
  main (scripted rerun_script) base_environ (tt, [])
  = (Raise SystemExit,
     (tt, [AOpenEvent "/github/workflow/event.json"; AOpenRepo;
           AGit GitRevParseShortHead;
           ARefs ["origin/main"; "origin/create-pull-request/patch-abc1234"];
           APrint "Pull request branch 'create-pull-request/patch-abc1234' already exists for this commit. Skipping."]))
  ∧ exit_status (run (main (scripted rerun_script) base_environ) tt).1 = 0
  ∧ Forall (λ a, is_lookup a = true ∧ is_publish a = false
                 ∧ is_create_pull a = false)
      (run (main (scripted rerun_script) base_environ) tt).2.
Proof.
  apply (existing_branch_short_circuit (scripted rerun_script) base_environ tt
           "push" "/github/workflow/event.json"
           (push_event "refs/heads/main" false)
           (tt, [AOpenEvent "/github/workflow/event.json"])
           (tt, [AOpenEvent "/github/workflow/event.json"])
           "refs/heads/main" "abc1234" tt);
    try reflexivity.
  vm_compute. apply list_elem_of_further, list_elem_of_here.
Defined.

(** ** The pull request orchestrator *)

Lemma run_git_post {W} (sys : System W) (c : git_call) :
  post (run_git sys c)
    (λ d r, d = [AGit c]
            ∧ ((∃ out, r = Val out)
               ∨ (r = Raise GitCommandError ∧ ∃ w, (sys_git sys c w).1 = None))).
Proof.
  intros s. exists [AGit c]. unfold run_git, bind, effect.
  destruct (sys_git sys c s.1) as [[out |] w'] eqn:E; simpl.
  - eauto.
  - repeat split. right. split; [reflexivity |]. exists s.1. now rewrite E.
Qed.

Lemma run_hub_post {W} (sys : System W) (c : hub_call) :
  post (run_hub sys c)
    (λ d r, d = [AHub c]
            ∧ ((∃ x, r = Val x)
               ∨ (r = Raise GithubException ∧ ∃ w, (sys_hub sys c w).1 = None))).
Proof.
  intros s. exists [AHub c]. unfold run_hub, bind, effect.
  destruct (sys_hub sys c s.1) as [[x |] w'] eqn:E; simpl.
  - eauto.
  - repeat split. right. split; [reflexivity |]. exists s.1. now rewrite E.
Qed.

(** Walks through a computation, one goal per path; a command or an API
    call brings the fact that it failed along with its failure. *)
Ltac post_step :=
  cbn [repo_git repo_origin_refs repo_is_dirty repo_untracked_files repo_object];
  lazymatch goal with
  | |- post (bind (run_git _ _) _) _ =>
      apply post_bind; eapply post_mono; [apply run_git_post |];
      intros ? ? [-> [[? ->] | [-> ?]]]
  | |- post (bind (run_hub _ _) _) _ =>
      apply post_bind; eapply post_mono; [apply run_hub_post |];
      intros ? ? [-> [[? ->] | [-> ?]]]
  | |- post (run_git _ _) _ =>
      eapply post_mono; [apply run_git_post |];
      intros ? ? [-> [[? ->] | [-> ?]]]
  | |- post (run_hub _ _) _ =>
      eapply post_mono; [apply run_hub_post |];
      intros ? ? [-> [[? ->] | [-> ?]]]
  | |- post (bind _ _) _ => apply post_bind
  | |- post (ret _) _ => apply post_ret
  | |- post (raise _) _ => apply post_raise
  | |- post sys_exit _ => apply post_raise
  | |- post (emit _) _ => apply post_emit
  | |- post (print _) _ => apply post_emit
  | |- post (if ?b then _ else _) _ => destruct b
  | |- post (match ?x with _ => _ end) _ => destruct x eqn:?
  | |- post ?m _ => let h := head_of m in unfold h
  end;
  cbv beta iota.

Ltac no_failure :=
  match goal with
  | Hok : nothing_fails _ _ |- _ =>
      let Hg := fresh in let Hh := fresh in let Ht := fresh in
      let Hr := fresh in let Hm := fresh in
      destruct Hok as (Hg & Hh & Ht & Hr & Hm);
      solve [ congruence
            | match goal with H : ∃ w, (sys_git _ _ w).1 = None |- _ =>
                destruct H as [? H]; exfalso; exact (Hg _ _ H) end
            | match goal with H : ∃ w, (sys_hub _ _ w).1 = None |- _ =>
                destruct H as [? H]; exfalso; exact (Hh _ _ H) end
            | match goal with H : sys_int _ _ = None |- _ =>
                exfalso; eapply Hm; eauto end ]
  end.

Lemma process_event_existing_branch {W} (sys : System W)
  (environ : gmap string string) event_name event_data branch base :
  post (process_event sys environ event_name event_data (repo_object sys)
          branch base true)
    (λ d r,
       Forall (λ a, is_hub a = false) d
       ∧ r ≠ Val tt
       ∧ (nothing_fails sys environ →
          r = Raise SystemExit
          ∧ ∃ token repository push_result,
              environ !! "GITHUB_TOKEN" = Some token
              ∧ environ !! "GITHUB_REPOSITORY" = Some repository
              ∧ d = [AGit (GitRemoteSetUrl "origin"
                        ("https://x-access-token:" +:+ token +:+ "@github.com/"
                           +:+ repository));
                     APrint "Pushing changes.";
                     AGit GitAddAll;
                     AGit (GitCommit
                             (getenv environ "COMMIT_MESSAGE"
                                "Auto-committed changes by create-pull-request action"));
                     AGit (GitPushForce "origin" branch);
                     APrint push_result;
                     APrint ("Updated pull request branch " +:+ branch +:+ ".")])).
Proof.
  unfold process_event, set_git_remote_url, push_changes, environ_item.
  repeat post_step;
    (split; [repeat constructor | split; [discriminate |]]);
    intros Hok; try no_failure.
  split; [reflexivity |]. eauto 10.
Qed.

Ltac use_environ :=
  repeat match goal with
         | H : ?environ !! _ = _ |- _ => rewrite H; clear H
         end.

Lemma process_event_new_branch {W} (sys : System W)
  (environ : gmap string string) event_name event_data branch base :
  post (process_event sys environ event_name event_data (repo_object sys)
          branch base false)
    (λ d r,
       steps_of d `prefix_of` configured_steps environ base branch
       ∧ (r = Val tt →
          steps_of d = configured_steps environ base branch
          ∧ length (List.filter is_create_pull d) = 1%nat)
       ∧ (length (List.filter is_create_pull d) ≤ 1)%nat
       ∧ (nothing_fails sys environ → r = Val tt)).
Proof.
  unfold process_event, set_git_remote_url, push_changes, environ_item.
  repeat post_step;
    (split;
     [ unfold configured_steps, step_if_present; cbn;
       try (apply prefix_nil); use_environ; cbn;
       eexists; reflexivity
     | split;
       [ intros Hr; try discriminate Hr;
         unfold configured_steps, step_if_present; use_environ;
         split; reflexivity
       | split;
         [ simpl; lia
         | intros Hok; try reflexivity; no_failure ] ] ]).
Qed.

(** C8.  On a branch that existed on the remote before the run, the
    orchestrator never calls the hosting API and never returns normally;
    when nothing fails it stops with [sys.exit()], exit status 0, right
    after the push, the printing of its output and the line saying that the
    branch was updated.  On a new branch, the steps taken are always an
    initial part of: the pull request from the resolved branch name into the
    target branch, then labels, assignees, milestone, reviewers and team
    reviewers, each one exactly when its variable is present; a run that
    returns normally has taken them all and has created exactly one pull
    request, no run creates more than one, and a run in which nothing fails
    returns normally. *)
Theorem pull_request_orchestrator {W} (sys : System W)
  (environ : gmap string string) (event_name : string) (event_data : pyval)
  (branch base : string) (w : W) :
  (Forall (λ a, is_hub a = false)
     (run (process_event sys environ event_name event_data (repo_object sys)
             branch base true) w).2
   ∧ (run (process_event sys environ event_name event_data (repo_object sys)
             branch base true) w).1 ≠ Val tt
   ∧ (nothing_fails sys environ →
      (run (process_event sys environ event_name event_data (repo_object sys)
              branch base true) w).1 = Raise SystemExit
      ∧ exit_status
          (run (process_event sys environ event_name event_data (repo_object sys)
                  branch base true) w).1 = 0
      ∧ ∃ token repository push_result,
          environ !! "GITHUB_TOKEN" = Some token
          ∧ environ !! "GITHUB_REPOSITORY" = Some repository
          ∧ (run (process_event sys environ event_name event_data
                    (repo_object sys) branch base true) w).2
            = [AGit (GitRemoteSetUrl "origin"
                       ("https://x-access-token:" +:+ token +:+ "@github.com/"
                          +:+ repository));
               APrint "Pushing changes.";
               AGit GitAddAll;
               AGit (GitCommit
                       (getenv environ "COMMIT_MESSAGE"
                          "Auto-committed changes by create-pull-request action"));
               AGit (GitPushForce "origin" branch);
               APrint push_result;
               APrint ("Updated pull request branch " +:+ branch +:+ ".")]))
  ∧ (steps_of
       (run (process_event sys environ event_name event_data (repo_object sys)
               branch base false) w).2
     `prefix_of` configured_steps environ base branch
     ∧ ((run (process_event sys environ event_name event_data (repo_object sys)
                branch base false) w).1 = Val tt →
        steps_of
          (run (process_event sys environ event_name event_data (repo_object sys)
                  branch base false) w).2
        = configured_steps environ base branch
        ∧ length (List.filter is_create_pull
                    (run (process_event sys environ event_name event_data
                            (repo_object sys) branch base false) w).2) = 1%nat)
     ∧ (length (List.filter is_create_pull
                  (run (process_event sys environ event_name event_data
                          (repo_object sys) branch base false) w).2) ≤ 1)%nat
     ∧ (nothing_fails sys environ →
        (run (process_event sys environ event_name event_data (repo_object sys)
                branch base false) w).1 = Val tt)).
Proof.
  split.
  - pose proof (post_run _ _ w
                  (process_event_existing_branch sys environ event_name
                     event_data branch base)) as (Hhub & Hret & Hok).
    split; [exact Hhub | split; [exact Hret |]].
    intros Hnf. destruct (Hok Hnf) as (Hr & Hlog).
    split; [exact Hr | split; [now rewrite Hr | exact Hlog]].
  - exact (post_run _ _ w
             (process_event_new_branch sys environ event_name event_data
                branch base)).
Qed.

Lemma scripted_nothing_fails :
  nothing_fails (scripted base_script) full_environ.
Proof.
  repeat split.
  - intros c w. now destruct c.
  - intros c w. now destruct c.
  - discriminate.
  - discriminate.
  - intros v Hv. vm_compute in Hv. injection Hv as <-. discriminate.
Defined.

Lemma pull_request_orchestrator_witness :
  (run (process_event (scripted base_script) full_environ "push"
          (push_event "refs/heads/main" false) (repo_object (scripted base_script))
          "create-pull-request/patch-abc1234" "main" true) tt).1 = Raise SystemExit
  ∧ steps_of
      (run (process_event (scripted base_script) full_environ "push"
              (push_event "refs/heads/main" false)
              (repo_object (scripted base_script))
              "create-pull-request/patch-abc1234" "main" false) tt).2
    = [StepCreate "main" "create-pull-request/patch-abc1234";
       StepLabels ["bug"; "automated"];
       StepAssignees ["alice"];
       StepMilestone;
       StepReviewers ["bob"; "carol"];
       StepTeamReviewers ["core"]].
Proof.
  destruct (pull_request_orchestrator (scripted base_script) full_environ "push"
              (push_event "refs/heads/main" false)
              "create-pull-request/patch-abc1234" "main" tt)
    as [(_ & _ & Hold) (_ & Hall & _ & Hok)].
  split.
  - exact (proj1 (Hold scripted_nothing_fails)).
  - rewrite (proj1 (Hall (Hok scripted_nothing_fails))). reflexivity.
Defined.


(** ** The workspace reconciler *)

(** The recovery path for every behaviour of git: when stashing and the
    checkout succeed and the pop fails, [checkout --theirs .] and [reset] are
    run, in that order, and when both succeed the function returns
    normally. *)
Lemma checkout_branch_recovers {W} (sys : System W) (branch : string)
  (w w1 w2 w3 w4 w5 : W) (o1 o2 o4 o5 : string) (log : list action) :
  sys_git sys GitStashIncludeUntracked w = (Some o1, w1) →
  sys_git sys (GitCheckout branch) w1 = (Some o2, w2) →
  sys_git sys GitStashPop w2 = (None, w3) →
  sys_git sys (GitCheckoutTheirs ".") w3 = (Some o4, w4) →
  sys_git sys GitReset w4 = (Some o5, w5) →
  checkout_branch (run_git sys) true branch (w, log)
  = (Val tt,
     (w5, (log ++ [AGit GitStashIncludeUntracked; AGit (GitCheckout branch);
                   AGit GitStashPop; AGit (GitCheckoutTheirs ".");
                   AGit GitReset])%list)).
Proof.
  intros H1 H2 H3 H4 H5.
  unfold checkout_branch, try_except, run_git, bind, effect. simpl.
  rewrite H1. simpl. rewrite H2. simpl. rewrite H3. simpl.
  rewrite H4. simpl. rewrite H5. simpl.
  now rewrite <- !app_assoc.
Qed.

(** A failure inside the handler is not caught: it ends the run. *)
Lemma checkout_branch_recovery_fails {W} (sys : System W) (branch : string)
  (w w1 w2 w3 w4 : W) (o1 o2 : string) (log : list action) :
  sys_git sys GitStashIncludeUntracked w = (Some o1, w1) →
  sys_git sys (GitCheckout branch) w1 = (Some o2, w2) →
  sys_git sys GitStashPop w2 = (None, w3) →
  sys_git sys (GitCheckoutTheirs ".") w3 = (None, w4) →
  (checkout_branch (run_git sys) true branch (w, log)).1 = Raise GitCommandError.
Proof.
  intros H1 H2 H3 H4.
  unfold checkout_branch, try_except, run_git, bind, effect. simpl.
  rewrite H1. simpl. rewrite H2. simpl. rewrite H3. simpl.
  rewrite H4. reflexivity.
Qed.

(** In the scripted world where only the pop fails, the five commands run
    and the function returns. *)
Example checkout_branch_recovers_run :
  checkout_branch
    (run_git (scripted {| scr_event := None; scr_open_repo := true;
                          scr_git := git_pop_conflict; scr_refs := [];
                          scr_dirty := true; scr_untracked := [];
                          scr_time := 0; scr_rand := λ _, O;
                          scr_hub := hub_all_ok |}))
    true "create-pull-request/patch-abc1234" (tt, [])
  = (Val tt,
     (tt, [AGit GitStashIncludeUntracked;
           AGit (GitCheckout "create-pull-request/patch-abc1234");
           AGit GitStashPop; AGit (GitCheckoutTheirs "."); AGit GitReset])).
Proof.
  now apply (checkout_branch_recovers _ _ tt tt tt tt tt tt "" "" "" "" []).
Qed.

Module MiniGitFacts.
Import MiniGit.

Section Facts.
Context (merge3 : option string → option string → option string → merged).
Context (markers : option string → option string → option string).








Lemma collides_false (on_disk extra : gmap string string) :
  collides on_disk extra = false
  ↔ ∀ p, is_Some (extra !! p) → on_disk !! p = None.
Proof.
  unfold collides. rewrite negb_false_iff, bool_decide_eq_true. split.
  - intros Hall p [x Hx]. exact (Hall p x Hx).
  - intros Hno p x Hx. apply Hno. eauto.
Qed.













End Facts.



(** When the local change is the deletion of [x.txt], the conflicting path
    has no stashed version, [checkout --theirs .] fails inside the handler
    and the run ends on that failure. *)
Example checkout_branch_recovery_can_fail :
  (checkout_branch (run_git (system merge3_whole markers_whole)) true
     "create-pull-request/patch-abc1234" (delete_repo, [])).1
  = Raise GitCommandError.
Proof. vm_compute. reflexivity. Qed.

(** When the local changes are a new file [x.txt], whose path the branch
    has, and an edit of the tracked [t.txt], nothing conflicts and yet the
    pop fails: [x.txt] stays as the branch has it, the fallback checks
    [t.txt] out again, so its edit is lost, and the stash entry stays. *)
Example checkout_branch_untracked_collision :
  pop_merge merge3_whole untracked_repo
    {[ "t.txt" := "base"; "x.txt" := "remote" ]}
  = {[ "t.txt" := Merged (Some "local"); "x.txt" := Merged (Some "remote") ]}
  ∧ checkout_branch (run_git (system merge3_whole markers_whole)) true
      "create-pull-request/patch-abc1234" (untracked_repo, [])
    = (Val tt,
       ({| head_tree := {[ "t.txt" := "base"; "x.txt" := "remote" ]};
           work_tree := {[ "t.txt" := "base"; "x.txt" := "remote" ]};
           branches := branches untracked_repo;
           stash := [(head_tree untracked_repo, work_tree untracked_repo)];
           unmerged := ∅ |},
        [AGit GitStashIncludeUntracked;
         AGit (GitCheckout "create-pull-request/patch-abc1234");
         AGit GitStashPop; AGit (GitCheckoutTheirs "."); AGit GitReset])).
Proof. split; vm_compute; reflexivity. Qed.

(** The pop fails just the same when the new local file holds what the
    branch's file holds: the path is taken, the five commands run and the
    stash entry stays. *)
Example checkout_branch_untracked_identical :
  checkout_branch (run_git (system merge3_whole markers_whole)) true
    "create-pull-request/patch-abc1234" (identical_repo, [])
  = (Val tt,
     ({| head_tree := {[ "t.txt" := "base"; "x.txt" := "remote" ]};
         work_tree := {[ "t.txt" := "base"; "x.txt" := "remote" ]};
         branches := branches identical_repo;
         stash := [(head_tree identical_repo, work_tree identical_repo)];
         unmerged := ∅ |},
      [AGit GitStashIncludeUntracked;
       AGit (GitCheckout "create-pull-request/patch-abc1234");
       AGit GitStashPop; AGit (GitCheckoutTheirs "."); AGit GitReset])).
Proof. vm_compute. reflexivity. Qed.

End MiniGitFacts.

(** Two runs in a row on the same commit, in the world that remembers what
    was pushed: the first creates the branch and one pull request, the second
    finds the branch on the remote and stops without any call to the hosting
    API. *)
Example second_run_creates_nothing :
  (main remembering base_environ (["origin/main"], [])).1 = Val tt
  ∧ length (List.filter is_create_pull
              (main remembering base_environ (["origin/main"], [])).2.2) = 1%nat
  ∧ (main remembering base_environ
       ((main remembering base_environ (["origin/main"], [])).2.1, [])).1
    = Raise SystemExit
  ∧ List.filter is_hub
      (main remembering base_environ
         ((main remembering base_environ (["origin/main"], [])).2.1, [])).2.2
    = []
  ∧ last (main remembering base_environ
            ((main remembering base_environ (["origin/main"], [])).2.1, [])).2.2
    = Some (APrint "Pull request branch 'create-pull-request/patch-abc1234' already exists for this commit. Skipping.").
Proof. repeat split; vm_compute; reflexivity. Qed.

(** * Further properties *)

(** ** Strings *)

Section Strings.

Lemma str_app_cons (c : ascii) (a b : string) :
  String c a +:+ b = String c (a +:+ b).
Proof. reflexivity. Qed.

Lemma str_app_nil_l (s : string) : "" +:+ s = s.
Proof. reflexivity. Qed.

Lemma str_app_nil_r (s : string) : s +:+ "" = s.
Proof.
  induction s as [| c s IH]; [reflexivity |]. now rewrite str_app_cons, IH.
Qed.

Lemma str_app_assoc (a b c : string) : (a +:+ b) +:+ c = a +:+ b +:+ c.
Proof.
  induction a as [| x a IH]; [reflexivity |]. now rewrite !str_app_cons, IH.
Qed.

Lemma str_rev_app_spec (s1 s2 : string) :
  String.rev_app s1 s2 = String.rev s1 +:+ s2.
Proof.
  unfold String.rev. revert s2. induction s1 as [| c s1 IH]; intros s2.
  - reflexivity.
  - simpl. rewrite (IH (String c s2)), (IH (String c "")).
    now rewrite str_app_assoc.
Qed.

Lemma str_rev_cons (c : ascii) (s : string) :
  String.rev (String c s) = String.rev s +:+ String c "".
Proof. unfold String.rev at 1. simpl. apply str_rev_app_spec. Qed.

Lemma str_rev_append (a b : string) :
  String.rev (a +:+ b) = String.rev b +:+ String.rev a.
Proof.
  induction a as [| c a IH].
  - now rewrite str_app_nil_l, str_app_nil_r.
  - rewrite str_app_cons, !str_rev_cons, IH. apply str_app_assoc.
Qed.

Lemma str_rev_involutive (s : string) : String.rev (String.rev s) = s.
Proof.
  induction s as [| c s IH]; [reflexivity |].
  rewrite str_rev_cons, str_rev_append, IH. reflexivity.
Qed.

Lemma str_all_space_append (a b : string) :
  str_all_space (a +:+ b) = str_all_space a && str_all_space b.
Proof.
  induction a as [| c a IH]; [reflexivity |].
  rewrite str_app_cons. unfold str_all_space in *. simpl.
  now rewrite IH, andb_assoc.
Qed.

Lemma str_all_space_rev (s : string) :
  str_all_space (String.rev s) = str_all_space s.
Proof.
  induction s as [| c s IH]; [reflexivity |].
  rewrite str_rev_cons, str_all_space_append, IH.
  unfold str_all_space. simpl. now rewrite andb_true_r, andb_comm.
Qed.

(** What [str_lstrip] removes is white space, and what it leaves does not
    start with white space. *)
Lemma str_lstrip_split (s : string) :
  ∃ l, s = l +:+ str_lstrip s ∧ str_all_space l = true
       ∧ match str_lstrip s with
         | EmptyString => True
         | String c _ => py_isspace c = false
         end.
Proof.
  induction s as [| c s (l & Hs & Hl & Hhead)].
  - exists "". repeat split.
  - simpl. destruct (py_isspace c) eqn:Hc.
    + exists (String c l). rewrite str_app_cons, <- Hs.
      unfold str_all_space in *. simpl. rewrite Hc, Hl. repeat split.
      exact Hhead.
    + exists "". repeat split. exact Hc.
Qed.

Lemma str_lstrip_skip (l s : string) :
  str_all_space l = true → str_lstrip (l +:+ s) = str_lstrip s.
Proof.
  induction l as [| c l IH]; [reflexivity |].
  unfold str_all_space. simpl. intros [Hc Hl]%andb_true_iff.
  rewrite Hc. now apply IH.
Qed.

Lemma str_lstrip_head (c : ascii) (s : string) :
  py_isspace c = false → str_lstrip (String c s) = String c s.
Proof. intros Hc. simpl. now rewrite Hc. Qed.

Lemma str_strip_padded (l x r : string) :
  str_all_space l = true → str_all_space r = true → trimmed x →
  str_strip (l +:+ x +:+ r) = x.
Proof.
  intros Hl Hr [(c & x' & -> & Hc) (d & y & Hrev & Hd)].
  unfold str_strip. rewrite (str_lstrip_skip l) by exact Hl.
  rewrite str_app_cons, (str_lstrip_head c) by exact Hc.
  rewrite <- str_app_cons, str_rev_append.
  rewrite str_lstrip_skip by now rewrite str_all_space_rev.
  rewrite Hrev, (str_lstrip_head d) by exact Hd.
  now rewrite <- Hrev, str_rev_involutive.
Qed.

(** Every string is white space, or a trimmed string between white space. *)
Lemma str_strip_cases (s : string) :
  (str_all_space s = true ∧ str_strip s = "")
  ∨ ∃ l x r, s = l +:+ x +:+ r ∧ str_all_space l = true
             ∧ str_all_space r = true ∧ trimmed x.
Proof.
  destruct (str_lstrip_split s) as (l & Hs & Hl & Hhead).
  destruct (str_lstrip s) as [| c s1] eqn:Hs1.
  - left. split.
    + rewrite Hs, str_app_nil_r. exact Hl.
    + unfold str_strip. now rewrite Hs1.
  - right.
    destruct (str_lstrip_split (String.rev (String c s1)))
      as (r' & Hrs & Hr' & Hhead').
    destruct (str_lstrip (String.rev (String c s1))) as [| d t] eqn:Ht.
    + exfalso. rewrite str_app_nil_r in Hrs. rewrite <- Hrs in Hr'.
      rewrite str_all_space_rev in Hr'. unfold str_all_space in Hr'.
      simpl in Hr'. now rewrite Hhead in Hr'.
    + exists l, (String.rev (String d t)), (String.rev r').
      assert (Hx : String c s1 = String.rev (String d t) +:+ String.rev r').
      { rewrite <- str_rev_append, <- Hrs. now rewrite str_rev_involutive. }
      split; [now rewrite <- Hx |].
      split; [exact Hl |]. split; [now rewrite str_all_space_rev |].
      split.
      * destruct (String.rev (String d t)) as [| c' x'] eqn:Hrev.
        -- apply (f_equal String.rev) in Hrev.
           rewrite str_rev_involutive in Hrev. discriminate.
        -- rewrite str_app_cons in Hx. injection Hx as <- _. eauto.
      * exists d, t. now rewrite str_rev_involutive.
Qed.

End Strings.

(** ** Comma separated lists *)

Section CommaLists.

Lemma str_has_comma_append (a b : string) :
  str_has_comma (a +:+ b) = str_has_comma a || str_has_comma b.
Proof.
  induction a as [| c a IH]; [reflexivity |].
  unfold str_has_comma in *. simpl. now rewrite IH, orb_assoc.
Qed.

Lemma str_all_space_no_comma (s : string) :
  str_all_space s = true → str_has_comma s = false.
Proof.
  unfold str_all_space, str_has_comma.
  induction s as [| c s IH]; [reflexivity |]. simpl.
  intros [Hc Hs]%andb_true_iff. rewrite (IH Hs), orb_false_r.
  destruct (Ascii.eqb_spec c ","%char) as [-> | _]; [discriminate | reflexivity].
Qed.

Lemma str_split_nonempty (s : string) : str_split ","%char s ≠ [].
Proof.
  destruct s as [| c s]; simpl; [discriminate |].
  destruct (Ascii.eqb c ","); [discriminate |].
  destruct (str_split "," s); discriminate.
Qed.

Lemma str_split_no_comma (a : string) :
  str_has_comma a = false → str_split ","%char a = [a].
Proof.
  unfold str_has_comma. induction a as [| c a IH]; [reflexivity |]. simpl.
  intros [Hc Ha]%orb_false_iff. rewrite Hc, (IH Ha). reflexivity.
Qed.

Lemma str_split_append (a rest : string) :
  str_has_comma a = false →
  str_split ","%char (a +:+ String ","%char rest)
  = a :: str_split ","%char rest.
Proof.
  unfold str_has_comma. induction a as [| c a IH]; [reflexivity |]. simpl.
  intros [Hc Ha]%orb_false_iff. rewrite Hc, (IH Ha). reflexivity.
Qed.

(** Splitting undoes joining, for fields without a comma. *)
Lemma str_split_concat (fields : list string) :
  fields ≠ [] → Forall (λ f, str_has_comma f = false) fields →
  str_split ","%char (String.concat "," fields) = fields.
Proof.
  induction fields as [| f fields IH]; [congruence |].
  intros _ Hall. inversion Hall as [| ? ? Hf Hrest]; subst.
  destruct fields as [| g fields].
  - simpl. now apply str_split_no_comma.
  - change (String.concat "," (f :: g :: fields))
      with (f +:+ String ","%char (String.concat "," (g :: fields))).
    rewrite str_split_append by exact Hf. f_equal. now apply IH.
Qed.

Lemma str_split_fields (s : string) :
  Forall (λ f, str_has_comma f = false) (str_split ","%char s).
Proof.
  induction s as [| c s IH]; simpl; [repeat constructor |].
  destruct (Ascii.eqb_spec c ","%char) as [-> | Hne].
  - constructor; [reflexivity | exact IH].
  - destruct (str_split "," s) as [| x xs].
    + repeat constructor. unfold str_has_comma. simpl.
      rewrite orb_false_r. now apply Ascii.eqb_neq.
    + inversion IH as [| ? ? Hx Hxs]; subst. constructor; [| exact Hxs].
      unfold str_has_comma in *. simpl. rewrite Hx, orb_false_r.
      now apply Ascii.eqb_neq.
Qed.

Lemma trimmed_nonempty (x : string) : trimmed x → str_nonempty x = true.
Proof. now intros [(c & x' & -> & _) _]. Qed.

Lemma str_strip_trimmed (x : string) : trimmed x → str_strip x = x.
Proof.
  intros Hx. rewrite <- (str_strip_padded "" x "") at 2 by auto.
  now rewrite str_app_nil_l, str_app_nil_r.
Qed.

Lemma str_strip_result (s : string) :
  str_strip s = "" ∨ trimmed (str_strip s).
Proof.
  destruct (str_strip_cases s) as [[_ H] | (l & x & r & -> & Hl & Hr & Hx)].
  - now left.
  - right. now rewrite str_strip_padded.
Qed.

Lemma str_strip_idempotent (s : string) : str_strip (str_strip s) = str_strip s.
Proof.
  destruct (str_strip_result s) as [-> | Hx]; [reflexivity |].
  now apply str_strip_trimmed.
Qed.

Lemma str_strip_no_comma (s : string) :
  str_has_comma s = false → str_has_comma (str_strip s) = false.
Proof.
  destruct (str_strip_cases s) as [[_ ->] | (l & x & r & -> & Hl & Hr & Hx)];
    [reflexivity |].
  rewrite str_strip_padded by assumption.
  rewrite !str_has_comma_append. now intros [_ [H _]%orb_false_iff]%orb_false_iff.
Qed.

Lemma item_is_clean_trimmed (x : string) :
  item_is_clean x → trimmed x.
Proof.
  intros (Hne & Hstrip & _). destruct (str_strip_result x) as [H | H].
  - rewrite Hstrip in H. now subst.
  - now rewrite Hstrip in H.
Qed.

(** X1.  Every item [cs_string_to_list] returns is non-empty, is its own
    [strip] (no white space at either end) and holds no comma. *)
Theorem cs_string_to_list_items_clean (str : string) :
  Forall item_is_clean (cs_string_to_list str).
Proof.
  unfold cs_string_to_list. apply Forall_forall. intros x Hx.
  apply list_elem_of_filter in Hx as [Hne Hx].
  apply list_elem_of_fmap in Hx as (f & -> & Hf).
  split; [exact Hne | split].
  - apply str_strip_idempotent.
  - apply str_strip_no_comma.
    pose proof (str_split_fields str) as Hall.
    rewrite Forall_forall in Hall. now apply Hall.
Qed.

Lemma cs_fields_padded (entries : list (string * string * string)) :
  Forall (λ e, str_all_space e.1.1 = true ∧ item_is_clean e.1.2
               ∧ str_all_space e.2 = true) entries →
  filter (λ i, str_nonempty i = true)
    (map str_strip (map (λ e, e.1.1 +:+ e.1.2 +:+ e.2) entries))
  = map (λ e, e.1.2) entries.
Proof.
  induction 1 as [| [[l x] r] entries (Hl & Hx & Hr) _ IH]; [reflexivity |].
  simpl in *. rewrite str_strip_padded by auto using item_is_clean_trimmed.
  rewrite filter_cons_True by apply Hx. now rewrite IH.
Qed.

(** X2.  Round trip: joining items with commas, each item between any
    amount of white space, and splitting the result with
    [cs_string_to_list] gives the items back, in order, when every item is
    non-empty, stripped and without a comma. *)
Theorem cs_string_to_list_join (entries : list (string * string * string)) :
  Forall (λ e, str_all_space e.1.1 = true ∧ item_is_clean e.1.2
               ∧ str_all_space e.2 = true) entries →
  cs_string_to_list
    (String.concat "," (map (λ e, e.1.1 +:+ e.1.2 +:+ e.2) entries))
  = map (λ e, e.1.2) entries.
Proof.
  intros Hall. destruct entries as [| e entries]; [reflexivity |].
  unfold cs_string_to_list. rewrite str_split_concat.
  - now apply cs_fields_padded.
  - discriminate.
  - apply Forall_fmap. eapply Forall_impl; [exact Hall |].
    intros [[l x] r] (Hl & Hx & Hr). simpl in *.
    rewrite !str_has_comma_append, (str_all_space_no_comma l Hl),
      (str_all_space_no_comma r Hr).
    destruct Hx as (_ & _ & ->). reflexivity.
Qed.

Lemma cs_string_to_list_join_witness :
  cs_string_to_list " bug,automated ,  help wanted"
  = ["bug"; "automated"; "help wanted"].
Proof.
  apply (cs_string_to_list_join
           [(" ", "bug", ""); ("", "automated", " "); ("  ", "help wanted", "")]).
  repeat constructor.
Defined.

End CommaLists.

Section BlankLists.

Lemma trimmed_not_all_space (l x r : string) :
  trimmed x → str_all_space (l +:+ x +:+ r) = false.
Proof.
  intros [(c & x' & -> & Hc) _]. rewrite !str_all_space_append.
  unfold str_all_space at 2. simpl. rewrite Hc. simpl. apply andb_false_r.
Qed.

Lemma str_strip_empty_iff (s : string) :
  str_strip s = "" ↔ str_all_space s = true.
Proof.
  destruct (str_strip_cases s) as [[Hs H] | (l & x & r & -> & Hl & Hr & Hx)].
  - tauto.
  - rewrite str_strip_padded, trimmed_not_all_space by assumption.
    split; [| discriminate]. intros ->. now apply trimmed_nonempty in Hx.
Qed.

Lemma str_split_all_space (s : string) :
  Forall (λ f, str_all_space f = true) (str_split ","%char s)
  ↔ forallb (λ c, py_isspace c || Ascii.eqb c ","%char)
      (list_ascii_of_string s) = true.
Proof.
  induction s as [| c s IH]; simpl.
  - split; [reflexivity | repeat constructor].
  - destruct (Ascii.eqb_spec c ","%char) as [-> | Hne].
    + simpl. rewrite <- IH. split.
      * now inversion 1.
      * intros H. constructor; [reflexivity | exact H].
    + rewrite orb_false_r, andb_true_iff, <- IH.
      pose proof (str_split_nonempty s) as Hsplit.
      destruct (str_split "," s) as [| x xs]; [congruence |].
      unfold str_all_space. simpl. split.
      * inversion 1 as [| ? ? Hcx Hxs]; subst. simpl in Hcx.
        apply andb_true_iff in Hcx as [Hc Hx].
        split; [exact Hc | constructor; assumption].
      * intros [Hc Hall]. inversion Hall as [| ? ? Hx Hxs]; subst.
        constructor; [| exact Hxs]. simpl. now rewrite Hc.
Qed.

(** X3.  [cs_string_to_list] returns the empty list exactly for the strings
    made of white space and commas only, the empty string among them. *)
Theorem cs_string_to_list_empty_iff (str : string) :
  cs_string_to_list str = []
  ↔ forallb (λ c, py_isspace c || Ascii.eqb c ","%char)
      (list_ascii_of_string str) = true.
Proof.
  rewrite <- str_split_all_space. unfold cs_string_to_list.
  induction (str_split "," str) as [| f fields IH]; simpl.
  - split; [constructor | reflexivity].
  - destruct (str_all_space f) eqn:Hf.
    + rewrite filter_cons_False
        by (rewrite (proj2 (str_strip_empty_iff f) Hf); discriminate).
      rewrite IH. split.
      * intros H. constructor; assumption.
      * now inversion 1.
    + assert (str_nonempty (str_strip f) = true) as Hne.
      { destruct (str_strip f) eqn:Hs; [| reflexivity].
        apply str_strip_empty_iff in Hs. congruence. }
      rewrite filter_cons_True by exact Hne. split; [discriminate |].
      inversion 1; congruence.
Qed.

End BlankLists.

(** ** More on the event classifier *)

(** X4.  The classifier never changes the world, and it prints exactly when
    it ignores: an answer of true comes with one line added to the log, an
    answer of false or an exception with none. *)
Theorem ignore_event_prints_iff_ignores {W} (event_name : string)
  (event_data : pyval) (s : W * list action) :
  (ignore_event event_name event_data s).2.1 = s.1
  ∧ match (ignore_event event_name event_data s).1 with
    | Val true =>
        ∃ line, (ignore_event event_name event_data s).2.2
                = (s.2 ++ [APrint line])%list
    | _ => (ignore_event event_name event_data s).2.2 = s.2
    end.
Proof.
  unfold ignore_event, lift, bind.
  destruct (String.eqb event_name "push"); [| now split].
  destruct (format_field event_data "deleted" []) as [deleted | e];
    [| now split]. simpl.
  destruct (String.eqb deleted "True"); simpl; [split; eauto |].
  destruct (format_field event_data "ref" []) as [ref | e]; [| now split].
  simpl. destruct (String.prefix "refs/heads/" ref); simpl; [now split |].
  split; eauto.
Qed.

(** X5.  Push payloads the classifier cannot read, and one it reads by its
    text: a payload that is not a dictionary raises [TypeError]; a dictionary
    without [deleted] raises [KeyError] on that key; with a [deleted] whose
    text is not ["True"] and without [ref] it raises [KeyError] on [ref]; and
    any [deleted] whose text is ["True"], the string ["True"] as well as the
    boolean, makes the event ignored.  Nothing is logged when it raises. *)
Theorem ignore_event_malformed_push {W} (s : W * list action) :
  (∀ event_data,
      (∀ text items, event_data ≠ PyDict text items) →
      ignore_event "push" event_data s = (Raise TypeError, s))
  ∧ (∀ text items,
      py_dict_get "deleted" items = None →
      ignore_event "push" (PyDict text items) s = (Raise (KeyError "deleted"), s))
  ∧ (∀ text items deleted,
      py_dict_get "deleted" items = Some deleted →
      py_str deleted ≠ "True" →
      py_dict_get "ref" items = None →
      ignore_event "push" (PyDict text items) s = (Raise (KeyError "ref"), s))
  ∧ (∀ text items deleted,
      py_dict_get "deleted" items = Some deleted →
      py_str deleted = "True" →
      (ignore_event "push" (PyDict text items) s).1 = Val true).
Proof.
  split; [| split; [| split]].
  - intros event_data Hnd. unfold ignore_event, lift, bind, format_field. simpl.
    destruct event_data; try reflexivity. now destruct (Hnd text items).
  - intros text items Hd. unfold ignore_event, lift, bind, format_field. simpl.
    now rewrite Hd.
  - intros text items deleted Hd Hne Hr.
    unfold ignore_event, lift, bind, format_field. simpl. rewrite Hd. simpl.
    destruct (String.eqb_spec (py_str deleted) "True") as [He | _];
      [congruence |].
    now rewrite Hr.
  - intros text items deleted Hd He.
    unfold ignore_event, lift, bind, format_field. simpl. rewrite Hd. simpl.
    now rewrite He.
Qed.

Lemma ignore_event_malformed_push_witness :
  ignore_event (W:=unit) "push" (PyOther "[]") (tt, []) = (Raise TypeError, (tt, []))
  ∧ ignore_event (W:=unit) "push" (PyDict "{}" PyNil) (tt, [])
    = (Raise (KeyError "deleted"), (tt, []))
  ∧ ignore_event (W:=unit) "push"
      (PyDict "{...}" (PyItem "deleted" (PyBool false) PyNil)) (tt, [])
    = (Raise (KeyError "ref"), (tt, []))
  ∧ (ignore_event (W:=unit) "push"
       (PyDict "{...}" (PyItem "deleted" (PyStr "True") PyNil)) (tt, [])).1
    = Val true.
Proof.
  destruct (ignore_event_malformed_push (W:=unit) (tt, []))
    as (H1 & H2 & H3 & H4).
  split; [| split; [| split]].
  - apply H1. discriminate.
  - apply H2. reflexivity.
  - apply (H3 _ _ (PyBool false)); [reflexivity | discriminate | reflexivity].
  - apply (H4 _ _ (PyStr "True")); reflexivity.
Defined.

(** ** Reading the event *)

(** X6.  [get_github_event] hands back the payload the file holds and never
    changes the world.  A file that cannot be opened raises [OSError] and a
    file that does not hold JSON raises [ValueError], both after the attempt
    and before anything is printed; without DEBUG_EVENT only the opening is
    logged; with a non-empty DEBUG_EVENT the event name and the dump of the
    payload are printed, and a missing GITHUB_EVENT_NAME then raises
    [KeyError] although the payload was read. *)
Theorem get_github_event_behaviour {W} (sys : System W)
  (environ : gmap string string) (path : string) (s : W * list action) :
  (sys_load_event sys path s.1 = None →
   sys_load_failure sys path s.1 = CannotOpen →
   get_github_event sys environ path s
   = (Raise OSError, (s.1, (s.2 ++ [AOpenEvent path])%list)))
  ∧ (sys_load_event sys path s.1 = None →
     sys_load_failure sys path s.1 = NotJson →
     get_github_event sys environ path s
     = (Raise ValueError, (s.1, (s.2 ++ [AOpenEvent path])%list)))
  ∧ (∀ event_data,
      sys_load_event sys path s.1 = Some event_data →
      (py_bool_of_env (environ !! "DEBUG_EVENT") = false →
       get_github_event sys environ path s
       = (Val event_data, (s.1, (s.2 ++ [AOpenEvent path])%list)))
      ∧ (py_bool_of_env (environ !! "DEBUG_EVENT") = true →
         ∀ name, environ !! "GITHUB_EVENT_NAME" = Some name →
         get_github_event sys environ path s
         = (Val event_data,
            (s.1, (s.2 ++ [AOpenEvent path; APrint name;
                           APrint (sys_dumps sys event_data)])%list)))
      ∧ (py_bool_of_env (environ !! "DEBUG_EVENT") = true →
         environ !! "GITHUB_EVENT_NAME" = None →
         get_github_event sys environ path s
         = (Raise (KeyError "GITHUB_EVENT_NAME"),
            (s.1, (s.2 ++ [AOpenEvent path])%list)))).
Proof.
  split; [| split].
  - intros Hload Hwhy. unfold get_github_event, bind, query. simpl.
    now rewrite Hload, Hwhy.
  - intros Hload Hwhy. unfold get_github_event, bind, query. simpl.
    now rewrite Hload, Hwhy.
  - intros event_data Hload. repeat split.
    + intros Hdebug. unfold get_github_event, bind, query. simpl.
      now rewrite Hload, Hdebug.
    + intros Hdebug name Hname.
      unfold get_github_event, bind, query, environ_item. simpl.
      rewrite Hload, Hdebug, Hname. simpl. now rewrite <- !app_assoc.
    + intros Hdebug Hname.
      unfold get_github_event, bind, query, environ_item. simpl.
      now rewrite Hload, Hdebug, Hname.
Qed.

Lemma get_github_event_behaviour_witness :
  get_github_event (scripted {| scr_event := None; scr_open_repo := true;
                                scr_git := git_all_ok; scr_refs := [];
                                scr_dirty := false; scr_untracked := [];
                                scr_time := 0; scr_rand := λ _, O;
                                scr_hub := hub_all_ok |})
    base_environ "/github/workflow/event.json" (tt, [])
  = (Raise OSError, (tt, [AOpenEvent "/github/workflow/event.json"]))
  ∧ get_github_event (not_json base_script)
      (<["DEBUG_EVENT" := "1"]> base_environ)
      "/github/workflow/event.json" (tt, [])
    = (Raise ValueError, (tt, [AOpenEvent "/github/workflow/event.json"]))
  ∧ get_github_event (scripted base_script)
      (<["DEBUG_EVENT" := "1"]> (delete "GITHUB_EVENT_NAME" base_environ))
      "/github/workflow/event.json" (tt, [])
    = (Raise (KeyError "GITHUB_EVENT_NAME"),
       (tt, [AOpenEvent "/github/workflow/event.json"])).
Proof.
  split; [| split].
  - refine (proj1 (get_github_event_behaviour (scripted _)
              _ "/github/workflow/event.json" (tt, [])) _ _);
      reflexivity.
  - refine (proj1 (proj2 (get_github_event_behaviour (not_json base_script)
              _ "/github/workflow/event.json" (tt, []))) _ _);
      reflexivity.
  - refine (proj2 (proj2 (proj2 (proj2 (get_github_event_behaviour
              (scripted base_script)
              _ "/github/workflow/event.json" (tt, [])))
              (push_event "refs/heads/main" false) _)) _ _);
      reflexivity.
Defined.

(** ** The author of the head commit *)

(** X7.  [get_head_author] neither logs nor changes the world.  For a push
    it reads [head_commit.author]: a payload without [head_commit] raises
    [KeyError], and one whose [head_commit] is null, as on the push that
    deletes a branch, raises [TypeError].  For any other event it builds the
    pair from GITHUB_ACTOR and raises [KeyError] when that is unset. *)
Theorem get_head_author_behaviour {W} (environ : gmap string string)
  (event_name : string) (event_data : pyval) (s : W * list action) :
  (get_head_author environ event_name event_data s).2 = s
  ∧ (∀ text items,
      event_name = "push" → event_data = PyDict text items →
      (py_dict_get "head_commit" items = None →
       (get_head_author environ event_name event_data s).1
       = Raise (KeyError "head_commit"))
      ∧ (py_dict_get "head_commit" items = Some PyNone →
         (get_head_author environ event_name event_data s).1 = Raise TypeError))
  ∧ (event_name ≠ "push" →
     (get_head_author environ event_name event_data s).1
     = match environ !! "GITHUB_ACTOR" with
       | Some actor => Val (actor +:+ "@users.noreply.github.com", actor)
       | None => Raise (KeyError "GITHUB_ACTOR")
       end).
Proof.
  split; [| split].
  - unfold get_head_author, lift, bind, environ_item.
    destruct (String.eqb event_name "push").
    + destruct (format_field event_data "head_commit" ["author"; "email"]);
        [| reflexivity].
      now destruct (format_field event_data "head_commit" ["author"; "name"]).
    + now destruct (environ !! "GITHUB_ACTOR").
  - intros text items -> ->. split; intros Hhc;
      unfold get_head_author, lift, bind, format_field; simpl; now rewrite Hhc.
  - intros Hne. unfold get_head_author, bind, environ_item.
    destruct (String.eqb_spec event_name "push") as [-> | _]; [congruence |].
    now destruct (environ !! "GITHUB_ACTOR").
Qed.

Lemma get_head_author_behaviour_witness :
  (get_head_author (W:=unit) base_environ "push"
     (PyDict "{...}" (PyItem "head_commit" PyNone PyNil)) (tt, [])).1
  = Raise TypeError.
Proof.
  refine (proj2 (proj1 (proj2 (get_head_author_behaviour (W:=unit) base_environ
            "push" _ (tt, []))) "{...}" _ eq_refl eq_refl) _).
  reflexivity.
Defined.

(** ** The git helpers *)

(** X8.  [set_git_config] sets [user.email] first: when that command fails
    the failure ends the call and [user.name] is not set; when it succeeds
    [user.name] is set next, and its failure ends the call too; the call
    returns when both succeeded.  What it sets is the argument between two
    double quote characters: a value two characters longer than the address
    or the name it was given, never the bare one. *)
Theorem set_git_config_quotes {W} (sys : System W) (email name : string)
  (w : W) (log : list action) :
  (∀ w1,
      sys_git sys (GitConfigGlobal "user.email" (dquote +:+ email +:+ dquote)) w
      = (None, w1) →
      set_git_config (run_git sys) email name (w, log)
      = (Raise GitCommandError,
         (w1, (log ++ [AGit (GitConfigGlobal "user.email"
                               (dquote +:+ email +:+ dquote))])%list)))
  ∧ (∀ out1 w1 w2,
      sys_git sys (GitConfigGlobal "user.email" (dquote +:+ email +:+ dquote)) w
      = (Some out1, w1) →
      sys_git sys (GitConfigGlobal "user.name" (dquote +:+ name +:+ dquote)) w1
      = (None, w2) →
      set_git_config (run_git sys) email name (w, log)
      = (Raise GitCommandError,
         (w2, (log ++ [AGit (GitConfigGlobal "user.email"
                               (dquote +:+ email +:+ dquote));
                       AGit (GitConfigGlobal "user.name"
                               (dquote +:+ name +:+ dquote))])%list)))
  ∧ (∀ out1 out2 w1 w2,
      sys_git sys (GitConfigGlobal "user.email" (dquote +:+ email +:+ dquote)) w
      = (Some out1, w1) →
      sys_git sys (GitConfigGlobal "user.name" (dquote +:+ name +:+ dquote)) w1
      = (Some out2, w2) →
      set_git_config (run_git sys) email name (w, log)
      = (Val tt,
         (w2, (log ++ [AGit (GitConfigGlobal "user.email"
                               (dquote +:+ email +:+ dquote));
                       AGit (GitConfigGlobal "user.name"
                               (dquote +:+ name +:+ dquote))])%list)))
  ∧ String.length (dquote +:+ email +:+ dquote) = (String.length email + 2)%nat
  ∧ dquote +:+ email +:+ dquote ≠ email
  ∧ dquote +:+ name +:+ dquote ≠ name.
Proof.
  assert (Hlen : ∀ v, String.length (dquote +:+ v +:+ dquote)
                      = (String.length v + 2)%nat).
  { intros v. rewrite !string_length_append. simpl. lia. }
  assert (Hne : ∀ v, dquote +:+ v +:+ dquote ≠ v).
  { intros v Hv. apply (f_equal String.length) in Hv. rewrite Hlen in Hv. lia. }
  split; [| split; [| split; [| auto]]].
  - intros w1 H1. unfold set_git_config, run_git, bind, effect. simpl.
    now rewrite H1.
  - intros out1 w1 w2 H1 H2. unfold set_git_config, run_git, bind, effect.
    simpl. rewrite H1. simpl. rewrite H2. simpl. now rewrite <- app_assoc.
  - intros out1 out2 w1 w2 H1 H2. unfold set_git_config, run_git, bind, effect.
    simpl. rewrite H1. simpl. rewrite H2. simpl. now rewrite <- app_assoc.
Qed.

Lemma set_git_config_quotes_witness :
  set_git_config
    (run_git (scripted {| scr_event := None; scr_open_repo := true;
                          scr_git := git_email_fails; scr_refs := [];
                          scr_dirty := true; scr_untracked := [];
                          scr_time := 0; scr_rand := λ _, O;
                          scr_hub := hub_all_ok |}))
    "openosrs.github@gmail.com" "OpenOSRS" (tt, [])
  = (Raise GitCommandError,
     (tt, [AGit (GitConfigGlobal "user.email"
                   (dquote +:+ "openosrs.github@gmail.com" +:+ dquote))]))
  ∧ set_git_config (run_git (scripted base_script))
      "openosrs.github@gmail.com" "OpenOSRS" (tt, [])
    = (Val tt,
       (tt, [AGit (GitConfigGlobal "user.email"
                     (dquote +:+ "openosrs.github@gmail.com" +:+ dquote));
             AGit (GitConfigGlobal "user.name"
                     (dquote +:+ "OpenOSRS" +:+ dquote))])).
Proof.
  split.
  - refine (proj1 (set_git_config_quotes (scripted _)
                     "openosrs.github@gmail.com" "OpenOSRS" tt []) tt _).
    reflexivity.
  - refine (proj1 (proj2 (proj2 (set_git_config_quotes (scripted base_script)
                     "openosrs.github@gmail.com" "OpenOSRS" tt [])))
              "" "" tt tt _ _); reflexivity.
Defined.

(** X9.  [push_changes] stages, commits and pushes in that order and stops
    at the first command that fails: a failing [add -A] is the only command
    of the call, a failing [commit] the last one, so the push is attempted
    only when both succeeded; and the call returns, with what the push
    printed, only when the push succeeded. *)
Theorem push_changes_in_order {W} (sys : System W)
  (branch commit_message : string) (w : W) (log : list action) :
  (∀ w1,
      sys_git sys GitAddAll w = (None, w1) →
      push_changes (run_git sys) branch commit_message (w, log)
      = (Raise GitCommandError, (w1, (log ++ [AGit GitAddAll])%list)))
  ∧ (∀ out1 w1 w2,
      sys_git sys GitAddAll w = (Some out1, w1) →
      sys_git sys (GitCommit commit_message) w1 = (None, w2) →
      push_changes (run_git sys) branch commit_message (w, log)
      = (Raise GitCommandError,
         (w2, (log ++ [AGit GitAddAll; AGit (GitCommit commit_message)])%list)))
  ∧ (∀ out1 out2 w1 w2 w3,
      sys_git sys GitAddAll w = (Some out1, w1) →
      sys_git sys (GitCommit commit_message) w1 = (Some out2, w2) →
      sys_git sys (GitPushForce "origin" branch) w2 = (None, w3) →
      push_changes (run_git sys) branch commit_message (w, log)
      = (Raise GitCommandError,
         (w3, (log ++ [AGit GitAddAll; AGit (GitCommit commit_message);
                       AGit (GitPushForce "origin" branch)])%list)))
  ∧ (∀ out1 out2 out3 w1 w2 w3,
      sys_git sys GitAddAll w = (Some out1, w1) →
      sys_git sys (GitCommit commit_message) w1 = (Some out2, w2) →
      sys_git sys (GitPushForce "origin" branch) w2 = (Some out3, w3) →
      push_changes (run_git sys) branch commit_message (w, log)
      = (Val out3,
         (w3, (log ++ [AGit GitAddAll; AGit (GitCommit commit_message);
                       AGit (GitPushForce "origin" branch)])%list))).
Proof.
  split; [| split; [| split]].
  - intros w1 H1. unfold push_changes, run_git, bind, effect. simpl.
    now rewrite H1.
  - intros out1 w1 w2 H1 H2. unfold push_changes, run_git, bind, effect.
    simpl. rewrite H1. simpl. rewrite H2. simpl. now rewrite <- app_assoc.
  - intros out1 out2 w1 w2 w3 H1 H2 H3.
    unfold push_changes, run_git, bind, effect.
    simpl. rewrite H1. simpl. rewrite H2. simpl. rewrite H3. simpl.
    now rewrite <- !app_assoc.
  - intros out1 out2 out3 w1 w2 w3 H1 H2 H3.
    unfold push_changes, run_git, bind, effect.
    simpl. rewrite H1. simpl. rewrite H2. simpl. rewrite H3. simpl.
    now rewrite <- !app_assoc.
Qed.

Lemma push_changes_in_order_witness :
  push_changes
    (run_git (scripted {| scr_event := None; scr_open_repo := true;
                          scr_git := git_commit_fails; scr_refs := [];
                          scr_dirty := true; scr_untracked := [];
                          scr_time := 0; scr_rand := λ _, O;
                          scr_hub := hub_all_ok |}))
    "create-pull-request/patch-abc1234" "message" (tt, [])
  = (Raise GitCommandError,
     (tt, [AGit GitAddAll; AGit (GitCommit "message")]))
  ∧ push_changes (run_git (scripted base_script))
      "create-pull-request/patch-abc1234" "message" (tt, [])
    = (Val "",
       (tt, [AGit GitAddAll; AGit (GitCommit "message");
             AGit (GitPushForce "origin" "create-pull-request/patch-abc1234")])).
Proof.
  split.
  - refine (proj1 (proj2 (push_changes_in_order (scripted _)
                     "create-pull-request/patch-abc1234" "message" tt []))
              "" tt tt _ _); reflexivity.
  - refine (proj2 (proj2 (proj2 (push_changes_in_order (scripted base_script)
                     "create-pull-request/patch-abc1234" "message" tt [])))
              "" "" "" tt tt tt _ _ _); reflexivity.
Defined.

(** X12.  Every way [checkout_branch] can go, by what git answers.  On an
    existing branch: a failing stash ends the call at once and a failing
    checkout right after the stash, which is then not popped; a pop that
    succeeds is the last command; a pop that fails is caught and followed by
    [checkout --theirs .], whose failure ends the call, and then by
    [reset], whose failure ends the call too; the call returns when the
    reset succeeded.  On a new branch the one command is
    [checkout -b branch HEAD], and its failure is the failure of the
    call. *)
Theorem checkout_branch_behaviours {W} (sys : System W) (branch : string)
  (w : W) (log : list action) :
  (∀ w1,
      sys_git sys GitStashIncludeUntracked w = (None, w1) →
      checkout_branch (run_git sys) true branch (w, log)
      = (Raise GitCommandError,
         (w1, (log ++ [AGit GitStashIncludeUntracked])%list)))
  ∧ (∀ out1 w1 w2,
      sys_git sys GitStashIncludeUntracked w = (Some out1, w1) →
      sys_git sys (GitCheckout branch) w1 = (None, w2) →
      checkout_branch (run_git sys) true branch (w, log)
      = (Raise GitCommandError,
         (w2, (log ++ [AGit GitStashIncludeUntracked;
                       AGit (GitCheckout branch)])%list)))
  ∧ (∀ out1 out2 out3 w1 w2 w3,
      sys_git sys GitStashIncludeUntracked w = (Some out1, w1) →
      sys_git sys (GitCheckout branch) w1 = (Some out2, w2) →
      sys_git sys GitStashPop w2 = (Some out3, w3) →
      checkout_branch (run_git sys) true branch (w, log)
      = (Val tt,
         (w3, (log ++ [AGit GitStashIncludeUntracked;
                       AGit (GitCheckout branch); AGit GitStashPop])%list)))
  ∧ (∀ out1 out2 w1 w2 w3 w4,
      sys_git sys GitStashIncludeUntracked w = (Some out1, w1) →
      sys_git sys (GitCheckout branch) w1 = (Some out2, w2) →
      sys_git sys GitStashPop w2 = (None, w3) →
      sys_git sys (GitCheckoutTheirs ".") w3 = (None, w4) →
      checkout_branch (run_git sys) true branch (w, log)
      = (Raise GitCommandError,
         (w4, (log ++ [AGit GitStashIncludeUntracked;
                       AGit (GitCheckout branch); AGit GitStashPop;
                       AGit (GitCheckoutTheirs ".")])%list)))
  ∧ (∀ out1 out2 out4 w1 w2 w3 w4 w5,
      sys_git sys GitStashIncludeUntracked w = (Some out1, w1) →
      sys_git sys (GitCheckout branch) w1 = (Some out2, w2) →
      sys_git sys GitStashPop w2 = (None, w3) →
      sys_git sys (GitCheckoutTheirs ".") w3 = (Some out4, w4) →
      sys_git sys GitReset w4 = (None, w5) →
      checkout_branch (run_git sys) true branch (w, log)
      = (Raise GitCommandError,
         (w5, (log ++ [AGit GitStashIncludeUntracked;
                       AGit (GitCheckout branch); AGit GitStashPop;
                       AGit (GitCheckoutTheirs "."); AGit GitReset])%list)))
  ∧ (∀ out1 out2 out4 out5 w1 w2 w3 w4 w5,
      sys_git sys GitStashIncludeUntracked w = (Some out1, w1) →
      sys_git sys (GitCheckout branch) w1 = (Some out2, w2) →
      sys_git sys GitStashPop w2 = (None, w3) →
      sys_git sys (GitCheckoutTheirs ".") w3 = (Some out4, w4) →
      sys_git sys GitReset w4 = (Some out5, w5) →
      checkout_branch (run_git sys) true branch (w, log)
      = (Val tt,
         (w5, (log ++ [AGit GitStashIncludeUntracked;
                       AGit (GitCheckout branch); AGit GitStashPop;
                       AGit (GitCheckoutTheirs "."); AGit GitReset])%list)))
  ∧ (∀ w1,
      sys_git sys (GitCheckoutNew "HEAD" branch) w = (None, w1) →
      checkout_branch (run_git sys) false branch (w, log)
      = (Raise GitCommandError,
         (w1, (log ++ [AGit (GitCheckoutNew "HEAD" branch)])%list)))
  ∧ (∀ out1 w1,
      sys_git sys (GitCheckoutNew "HEAD" branch) w = (Some out1, w1) →
      checkout_branch (run_git sys) false branch (w, log)
      = (Val tt, (w1, (log ++ [AGit (GitCheckoutNew "HEAD" branch)])%list))).
Proof.
  repeat split; intros;
    unfold checkout_branch, try_except, run_git, bind, effect; simpl;
    repeat match goal with
           | H : sys_git _ _ _ = _ |- _ => rewrite H; clear H; simpl
           end;
    now rewrite <- ?app_assoc.
Qed.

Lemma checkout_branch_behaviours_witness :
  checkout_branch
    (run_git (scripted {| scr_event := None; scr_open_repo := true;
                          scr_git := git_checkout_fails; scr_refs := [];
                          scr_dirty := true; scr_untracked := [];
                          scr_time := 0; scr_rand := λ _, O;
                          scr_hub := hub_all_ok |}))
    true "create-pull-request/patch-abc1234" (tt, [])
  = (Raise GitCommandError,
     (tt, [AGit GitStashIncludeUntracked;
           AGit (GitCheckout "create-pull-request/patch-abc1234")]))
  ∧ checkout_branch (run_git (scripted base_script))
      true "create-pull-request/patch-abc1234" (tt, [])
    = (Val tt,
       (tt, [AGit GitStashIncludeUntracked;
             AGit (GitCheckout "create-pull-request/patch-abc1234");
             AGit GitStashPop]))
  ∧ checkout_branch (run_git (scripted base_script))
      false "create-pull-request/patch-abc1234" (tt, [])
    = (Val tt,
       (tt, [AGit (GitCheckoutNew "HEAD" "create-pull-request/patch-abc1234")])).
Proof.
  split; [| split].
  - refine (proj1 (proj2 (checkout_branch_behaviours (scripted _)
                     "create-pull-request/patch-abc1234" tt []))
              "" tt tt _ _); reflexivity.
  - refine (proj1 (proj2 (proj2 (checkout_branch_behaviours
                     (scripted base_script)
                     "create-pull-request/patch-abc1234" tt [])))
              "" "" "" tt tt tt _ _ _); reflexivity.
  - refine (proj2 (proj2 (proj2 (proj2 (proj2 (proj2 (proj2
              (checkout_branch_behaviours (scripted base_script)
                 "create-pull-request/patch-abc1234" tt [])))))))
              "" tt _); reflexivity.
Defined.

(** ** More on the pull request orchestrator *)

(** X10.  [process_event] reads its two required variables before anything
    else: when GITHUB_TOKEN is unset, or GITHUB_REPOSITORY is, it raises
    [KeyError] on that name without having run a command, called the hosting
    API or printed a line. *)
Theorem process_event_requires_token_and_repository {W} (sys : System W)
  (environ : gmap string string) (event_name : string) (event_data : pyval)
  (repo : Repo W) (branch base : string) (remote_exists : bool)
  (s : W * list action) :
  (environ !! "GITHUB_TOKEN" = None →
   process_event sys environ event_name event_data repo branch base
     remote_exists s
   = (Raise (KeyError "GITHUB_TOKEN"), s))
  ∧ (∀ token, environ !! "GITHUB_TOKEN" = Some token →
     environ !! "GITHUB_REPOSITORY" = None →
     process_event sys environ event_name event_data repo branch base
       remote_exists s
     = (Raise (KeyError "GITHUB_REPOSITORY"), s)).
Proof.
  split.
  - intros Ht. unfold process_event, environ_item. now rewrite Ht.
  - intros token Ht Hr. unfold process_event, environ_item.
    rewrite Ht, Hr. reflexivity.
Qed.

Lemma process_event_requires_token_and_repository_witness :
  process_event (scripted base_script) (delete "GITHUB_TOKEN" base_environ)
    "push" (push_event "refs/heads/main" false)
    (repo_object (scripted base_script))
    "create-pull-request/patch-abc1234" "main" false (tt, [])
  = (Raise (KeyError "GITHUB_TOKEN"), (tt, [])).
Proof.
  apply (proj1 (process_event_requires_token_and_repository
                  (scripted base_script) (delete "GITHUB_TOKEN" base_environ)
                  "push" (push_event "refs/heads/main" false)
                  (repo_object (scripted base_script))
                  "create-pull-request/patch-abc1234" "main" false (tt, []))).
  reflexivity.
Defined.

Ltac calls_succeed :=
  match goal with
  | Hg : ∀ c w, (sys_git _ c w).1 ≠ None,
    H : ∃ w, (sys_git _ _ w).1 = None |- _ =>
      destruct H as [? H]; exfalso; exact (Hg _ _ H)
  | Hh : ∀ c w, (sys_hub _ c w).1 ≠ None,
    H : ∃ w, (sys_hub _ _ w).1 = None |- _ =>
      destruct H as [? H]; exfalso; exact (Hh _ _ H)
  end.

(** X11.  A milestone that is not an integer is found out late: on a new
    branch, with every command and API call succeeding, a
    PULL_REQUEST_MILESTONE that [int] rejects makes the run raise
    [ValueError] after the pull request has been created and the labels and
    assignees applied; no milestone is set and no reviewers are requested,
    whatever is configured for them. *)
Theorem process_event_bad_milestone {W} (sys : System W)
  (environ : gmap string string) (event_name : string) (event_data : pyval)
  (branch base milestone : string) (w : W) :
  (∀ c w, (sys_git sys c w).1 ≠ None) →
  (∀ c w, (sys_hub sys c w).1 ≠ None) →
  environ !! "GITHUB_TOKEN" ≠ None →
  environ !! "GITHUB_REPOSITORY" ≠ None →
  environ !! "PULL_REQUEST_MILESTONE" = Some milestone →
  sys_int sys milestone = None →
  (run (process_event sys environ event_name event_data (repo_object sys)
          branch base false) w).1 = Raise ValueError
  ∧ steps_of
      (run (process_event sys environ event_name event_data (repo_object sys)
              branch base false) w).2
    = (StepCreate base branch
       :: step_if_present (environ !! "PULL_REQUEST_LABELS") StepLabels
       ++ step_if_present (environ !! "PULL_REQUEST_ASSIGNEES") StepAssignees)%list.
Proof.
  intros Hgit Hhub Htoken Hrepo Hmilestone Hint.
  apply (post_run
           (process_event sys environ event_name event_data (repo_object sys)
              branch base false)
           (λ d r, r = Raise ValueError ∧ steps_of d = _)).
  unfold process_event, set_git_remote_url, push_changes, environ_item.
  rewrite Hmilestone, Hint.
  repeat post_step; try congruence; try calls_succeed;
    (split; [reflexivity |]);
    unfold step_if_present; use_environ; reflexivity.
Qed.

Lemma process_event_bad_milestone_witness :
  (run (process_event (scripted base_script)
          (<["PULL_REQUEST_MILESTONE" := "v1.0"]> full_environ) "push"
          (push_event "refs/heads/main" false)
          (repo_object (scripted base_script))
          "create-pull-request/patch-abc1234" "main" false) tt).1
  = Raise ValueError
  ∧ steps_of
      (run (process_event (scripted base_script)
              (<["PULL_REQUEST_MILESTONE" := "v1.0"]> full_environ) "push"
              (push_event "refs/heads/main" false)
              (repo_object (scripted base_script))
              "create-pull-request/patch-abc1234" "main" false) tt).2
    = [StepCreate "main" "create-pull-request/patch-abc1234";
       StepLabels ["bug"; "automated"]; StepAssignees ["alice"]].
Proof.
  destruct (process_event_bad_milestone (scripted base_script)
              (<["PULL_REQUEST_MILESTONE" := "v1.0"]> full_environ) "push"
              (push_event "refs/heads/main" false)
              "create-pull-request/patch-abc1234" "main" "v1.0" tt)
    as [Hr Hs].
  - intros c w. now destruct c.
  - intros c w. now destruct c.
  - discriminate.
  - discriminate.
  - reflexivity.
  - reflexivity.
  - split; [exact Hr | rewrite Hs; reflexivity].
Defined.

(** ** Order and number of the publishing steps of a run *)

Lemma api_after_push_frame (pushed : bool) (d0 d : list action) :
  Forall (λ a, is_hub a = false ∧ is_push a = false) d0 →
  api_after_push pushed (d0 ++ d) = api_after_push pushed d.
Proof.
  induction 1 as [| a d0 [Hh Hp] _ IH]; [reflexivity |].
  simpl. now rewrite Hh, Hp, orb_false_r.
Qed.

Lemma api_after_push_spec (pushed : bool) (log l1 l2 : list action) (a : action) :
  api_after_push pushed log = true →
  log = (l1 ++ a :: l2)%list → is_hub a = true →
  pushed = true ∨ Exists (λ b, is_push b = true) l1.
Proof.
  revert pushed l1. induction log as [| b log IH]; intros pushed l1 Hok Hlog Ha.
  - now destruct l1.
  - destruct l1 as [| b' l1]; simpl in Hlog; injection Hlog as <- ->.
    + simpl in Hok. rewrite Ha in Hok. apply andb_true_iff in Hok as [-> _].
      now left.
    + simpl in Hok. destruct (is_hub b).
      * apply andb_true_iff in Hok as [-> _]. now left.
      * destruct (IH _ _ Hok eq_refl Ha) as [[-> | Hb]%orb_true_iff | Hex].
        -- now left.
        -- right. now constructor.
        -- right. now apply Exists_cons_tl.
Qed.

Lemma count_frame (f : action → bool) (d0 d : list action) :
  Forall (λ a, f a = false) d0 →
  length (List.filter f (d0 ++ d)) = length (List.filter f d).
Proof.
  induction 1 as [| a d0 Ha _ IH]; [reflexivity |]. simpl. now rewrite Ha.
Qed.

Lemma process_event_order {W} (sys : System W) (environ : gmap string string)
  event_name event_data branch base remote_exists :
  post (process_event sys environ event_name event_data (repo_object sys)
          branch base remote_exists)
    (λ d _, api_after_push false d = true
            ∧ (length (List.filter is_push d) ≤ 1)%nat
            ∧ (length (List.filter is_create_pull d) ≤ 1)%nat).
Proof.
  unfold process_event, set_git_remote_url, push_changes, environ_item.
  repeat post_step; (split; [reflexivity | split; simpl; lia]).
Qed.

Ltac framed_step_to_event :=
  cbn [repo_git repo_origin_refs repo_is_dirty repo_untracked_files repo_object];
  lazymatch goal with
  | |- framed _ _ (process_event _ _ _ _ _ _ _ _) => fail
  | |- framed _ _ (bind (open_repo _) _) =>
      apply framed_bind_open_repo; [assumption | |]
  | |- framed _ _ (bind _ _) => apply framed_bind; [assumption | | intros ?]
  | |- framed _ _ (if ?b then _ else _) => destruct b
  | |- framed _ _ _ => apply framed_emits; [assumption |]
  end.

(** X13.  In every run of the script, a call to the hosting API comes only
    after a push, there is at most one push, and at most one pull request is
    created. *)
Theorem main_publishes_in_order {W} (sys : System W)
  (environ : gmap string string) (w : W) :
  (∀ l1 a l2,
      (run (main sys environ) w).2 = (l1 ++ a :: l2)%list →
      is_hub a = true → Exists (λ b, is_push b = true) l1)
  ∧ (length (List.filter is_push (run (main sys environ) w).2) ≤ 1)%nat
  ∧ (length (List.filter is_create_pull (run (main sys environ) w).2) ≤ 1)%nat.
Proof.
  set (P0 := λ a, is_hub a = false ∧ is_push a = false).
  set (Q := λ (d : list action) (r : outcome unit),
         api_after_push false d = true
         ∧ (length (List.filter is_push d) ≤ 1)%nat
         ∧ (length (List.filter is_create_pull d) ≤ 1)%nat).
  assert (Hcp : ∀ d, Forall P0 d → Forall (λ a, is_create_pull a = false) d).
  { intros d Hd. eapply Forall_impl; [exact Hd |].
    intros [| [] | | | | | | | | |] [Hh _]; try reflexivity; discriminate. }
  assert (Hpu : ∀ d, Forall P0 d → Forall (λ a, is_push a = false) d).
  { intros d Hd. eapply Forall_impl; [exact Hd |]. now intros a [_ H]. }
  assert (Hframe : ∀ d0 d r, Forall P0 d0 → Q d r → Q (d0 ++ d)%list r).
  { intros d0 d r Hd0 (Ho & Hp & Hc). unfold Q.
    rewrite api_after_push_frame, !count_frame by auto. auto. }
  assert (Hclean : ∀ d r, Forall P0 d → Q d r).
  { intros d r Hd. rewrite <- (app_nil_r d). apply Hframe; [exact Hd |].
    repeat split; simpl; lia. }
  assert (HQ : Q (run (main sys environ) w).2 (run (main sys environ) w).1).
  { apply post_run, (framed_post P0).
    unfold main, main_body, publish_if_changed.
    repeat framed_step_to_event;
      try (emits_auto; split; reflexivity);
      try (split; reflexivity).
    all: unfold framed; eapply post_mono; [apply process_event_order |];
      intros d r Hd d0 Hd0; apply Hframe; [exact Hd0 | exact Hd]. }
  destruct HQ as (Ho & Hp & Hc). split; [| auto].
  intros l1 a l2 Hlog Ha.
  destruct (api_after_push_spec false _ l1 l2 a Ho Hlog Ha) as [? | H];
    [discriminate | exact H].
Qed.

(** ** More on the branch namer *)

(** X14.  The other strategies.  Under [timestamp] the name is the base, a
    dash and the seconds of the clock in decimal, so two runs at different
    seconds get different names.  A BRANCH_SUFFIX that is none of the three
    strategies leaves the name as it is, without asking git, the clock or the
    generator. *)
Theorem resolve_branch_name_other_strategies {W} (sys : System W)
  (base : string) (s : W * list action) :
  resolve_branch_name sys (repo_object sys) base "timestamp" s
  = (Val (base +:+ "-" +:+ pretty (sys_time sys s.1)),
     (s.1, (s.2 ++ [ATime (sys_time sys s.1)])%list))
  ∧ (∀ t1 t2 : Z,
       base +:+ "-" +:+ pretty t1 = base +:+ "-" +:+ pretty t2 → t1 = t2)
  ∧ (∀ branch_suffix,
       branch_suffix ≠ "short-commit-hash" → branch_suffix ≠ "timestamp" →
       branch_suffix ≠ "random" →
       resolve_branch_name sys (repo_object sys) base branch_suffix s
       = (Val base, s)).
Proof.
  split; [reflexivity | split].
  - intros t1 t2 H. apply String.app_inj in H. apply String.app_inj in H.
    now apply (inj pretty).
  - intros branch_suffix H1 H2 H3. unfold resolve_branch_name.
    apply String.eqb_neq in H1, H2, H3. now rewrite H1, H2, H3.
Qed.

Lemma resolve_branch_name_other_strategies_witness :
  resolve_branch_name (scripted base_script) (repo_object (scripted base_script))
    "create-pull-request/patch" "none" (tt, [])
  = (Val "create-pull-request/patch", (tt, [])).
Proof.
  apply (proj2 (proj2 (resolve_branch_name_other_strategies
                         (scripted base_script) "create-pull-request/patch"
                         (tt, [])))); discriminate.
Defined.

Lemma get_random_suffix_of_run {W} (sys : System W) (size : nat)
  (chars : string) (s : W * list action) :
  chars ≠ "" →
  ∃ suffix w' d,
    get_random_suffix_of sys size chars s = (Val suffix, (w', (s.2 ++ d)%list))
    ∧ String.length suffix = size
    ∧ length d = size
    ∧ Forall (λ a, ∃ i, a = ARandBelow (String.length chars) i) d
    ∧ Forall (λ c, In c (list_ascii_of_string chars))
        (list_ascii_of_string suffix).
Proof.
  intros Hne. revert s. induction size as [| size IH]; intros [w log].
  - exists "", w, []. simpl. rewrite app_nil_r. repeat split; constructor.
  - assert (Hc : ∃ i w' c,
               random_choice sys chars (w, log)
               = (Val c, (w', (log ++ [ARandBelow (String.length chars) i])%list))
               ∧ In c (list_ascii_of_string chars)).
    { unfold random_choice.
      destruct (String.length chars =? 0)%nat eqn:Hlen.
      { apply Nat.eqb_eq in Hlen. destruct chars; [congruence | discriminate]. }
      unfold bind, effect. simpl.
      destruct (sys_randbelow sys (String.length chars) w) as [i w'].
      destruct (string_get_in chars (i mod String.length chars))
        as (c & Hget & Hin).
      { apply Nat.mod_upper_bound. destruct chars; [congruence | discriminate]. }
      rewrite Hget. eauto 10. }
    destruct Hc as (i & w' & c & Hc & Hin).
    destruct (IH (w', (log ++ [ARandBelow (String.length chars) i])%list))
      as (rest & w'' & d & Hr & Hlen & Hd & Hall & Hchars).
    exists (String c rest), w'', (ARandBelow (String.length chars) i :: d).
    simpl. unfold bind at 1. rewrite Hc. unfold bind at 1. rewrite Hr.
    simpl. rewrite <- app_assoc. repeat split; simpl; auto.
    constructor; eauto.
Qed.

(** X15.  [get_random_suffix_of] for any size and alphabet: size zero gives
    the empty string without a draw; an empty alphabet raises [IndexError]
    at the first choice; otherwise the generator is asked exactly [size]
    times, each time for an index below the length of the alphabet, and the
    result has [size] characters of the alphabet. *)
Theorem get_random_suffix_of_draws {W} (sys : System W) (size : nat)
  (chars : string) (s : W * list action) :
  get_random_suffix_of sys 0 chars s = (Val "", s)
  ∧ (get_random_suffix_of sys (S size) "" s).1 = Raise IndexError
  ∧ (chars ≠ "" →
     ∃ suffix d,
       (get_random_suffix_of sys size chars s).1 = Val suffix
       ∧ (get_random_suffix_of sys size chars s).2.2 = (s.2 ++ d)%list
       ∧ String.length suffix = size
       ∧ length d = size
       ∧ Forall (λ a, ∃ i, a = ARandBelow (String.length chars) i) d
       ∧ Forall (λ c, In c (list_ascii_of_string chars))
           (list_ascii_of_string suffix)).
Proof.
  split; [reflexivity | split].
  - reflexivity.
  - intros Hne.
    destruct (get_random_suffix_of_run sys size chars s Hne)
      as (suffix & w' & d & Hrun & H).
    exists suffix, d. rewrite Hrun. auto.
Qed.

Lemma get_random_suffix_of_draws_witness :
  ∃ suffix d,
    (get_random_suffix_of (scripted base_script) 3 "ab" (tt, [])).1 = Val suffix
    ∧ (get_random_suffix_of (scripted base_script) 3 "ab" (tt, [])).2.2
      = ([] ++ d)%list
    ∧ String.length suffix = 3%nat
    ∧ length d = 3%nat
    ∧ Forall (λ a, ∃ i, a = ARandBelow (String.length "ab") i) d
    ∧ Forall (λ c, In c (list_ascii_of_string "ab")) (list_ascii_of_string suffix).
Proof.
  apply (proj2 (proj2 (get_random_suffix_of_draws (scripted base_script) 3 "ab"
                         (tt, [])))).
  discriminate.
Defined.

(** ** The start of the script *)

(** X16.  The variables the script cannot do without.  Without
    GITHUB_EVENT_NAME, or without GITHUB_EVENT_PATH, the run ends on
    [KeyError] with exit status 1 before anything is done; without
    GITHUB_REF it ends the same way right after the repository has been
    opened, before any git command. *)
Theorem main_required_variables {W} (sys : System W)
  (environ : gmap string string) (s : W * list action) :
  (environ !! "GITHUB_EVENT_NAME" = None →
   main sys environ s = (Raise (KeyError "GITHUB_EVENT_NAME"), s))
  ∧ (∀ name, environ !! "GITHUB_EVENT_NAME" = Some name →
     environ !! "GITHUB_EVENT_PATH" = None →
     main sys environ s = (Raise (KeyError "GITHUB_EVENT_PATH"), s))
  ∧ (∀ event_name event_data,
       sys_open_repo sys s.1 = true →
       environ !! "GITHUB_REF" = None →
       main_body sys environ event_name event_data s
       = (Raise (KeyError "GITHUB_REF"), (s.1, (s.2 ++ [AOpenRepo])%list)))
  ∧ exit_status (A:=unit) (Raise (KeyError "GITHUB_REF")) = 1.
Proof.
  split; [| split; [| split; [| reflexivity]]].
  - intros Hn. unfold main, environ_item. now rewrite Hn.
  - intros name Hn Hp. unfold main, environ_item. now rewrite Hn, Hp.
  - intros event_name event_data Hopen Href.
    unfold main_body, open_repo, environ_item. rewrite Href.
    unfold bind at 1. unfold bind at 1. unfold query at 1.
    now rewrite Hopen.
Qed.

Lemma main_required_variables_witness :
  main (scripted base_script) (delete "GITHUB_EVENT_PATH" base_environ) (tt, [])
  = (Raise (KeyError "GITHUB_EVENT_PATH"), (tt, [])).
Proof.
  apply (proj1 (proj2 (main_required_variables (scripted base_script)
                         (delete "GITHUB_EVENT_PATH" base_environ) (tt, [])))
           "push"); reflexivity.
Defined.

(** X17.  The push that deletes a branch, end to end: with the classifier
    active and no debugging, a push event whose [deleted] is true makes the
    whole run open the event file, print that it ignores the event and end
    normally, with exit status 0; the repository is not even opened. *)
Theorem main_ignores_deleted_branch_push {W} (sys : System W)
  (environ : gmap string string) (path text : string) (items : pyitems)
  (w : W) :
  environ !! "GITHUB_EVENT_NAME" = Some "push" →
  environ !! "GITHUB_EVENT_PATH" = Some path →
  py_bool_of_env (environ !! "DEBUG_EVENT") = false →
  py_bool_of_env (environ !! "SKIP_IGNORE") = false →
  sys_load_event sys path w = Some (PyDict text items) →
  py_dict_get "deleted" items = Some (PyBool true) →
  main sys environ (w, [])
  = (Val tt, (w, [AOpenEvent path; APrint "Ignoring delete branch event."]))
  ∧ exit_status (main sys environ (w, [])).1 = 0.
Proof.
  intros Hn Hp Hdebug Hskip Hload Hdel.
  assert (Hmain : main sys environ (w, [])
                  = (Val tt, (w, [AOpenEvent path;
                                  APrint "Ignoring delete branch event."]))).
  { rewrite (main_unfold sys environ "push" path (PyDict text items)
               (w, []) (w, [AOpenEvent path]) Hn Hp).
    - unfold bind, event_gate. rewrite Hskip. unfold bind.
      now rewrite ignore_event_push_deleted.
    - unfold get_github_event, bind, query. simpl. now rewrite Hload, Hdebug. }
  now rewrite Hmain.
Qed.

Lemma main_ignores_deleted_branch_push_witness :
  main (scripted
          {| scr_event := Some (push_event "refs/heads/feature" true);
             scr_open_repo := true; scr_git := git_all_ok;
             scr_refs := []; scr_dirty := true; scr_untracked := [];
             scr_time := 0; scr_rand := λ _, O; scr_hub := hub_all_ok |})
    base_environ (tt, [])
  = (Val tt, (tt, [AOpenEvent "/github/workflow/event.json";
                   APrint "Ignoring delete branch event."])).
Proof.
  refine (proj1 (main_ignores_deleted_branch_push _ base_environ
                   "/github/workflow/event.json" "{...}" _ tt _ _ _ _ _ _));
    reflexivity.
Defined.

(** ** A branch name without suffix *)

Lemma process_event_existing_no_api {W} (sys : System W)
  (environ : gmap string string) event_name event_data branch base :
  emits (λ a, is_hub a = false ∧ is_refs_query a = false)
    (process_event sys environ event_name event_data (repo_object sys)
       branch base true).
Proof.
  unfold emits, process_event, set_git_remote_url, push_changes, environ_item.
  repeat post_step; repeat constructor.
Qed.

Ltac emits_step_existing :=
  lazymatch goal with
  | |- emits _ (process_event _ _ _ _ _ _ _ true) =>
      apply process_event_existing_no_api
  | |- _ => emits_step
  end.

(** X18.  With a BRANCH_SUFFIX that is none of the three strategies the
    branch name is fixed, and a run that finds that name among the remote
    references never calls the hosting API: it can update the branch, it
    cannot create a pull request. *)
Theorem main_fixed_name_never_creates {W} (sys : System W)
  (environ : gmap string string) (w : W) (branch_suffix : string)
  (names : list string) :
  environ !! "BRANCH_SUFFIX" = Some branch_suffix →
  branch_suffix ≠ "short-commit-hash" →
  branch_suffix ≠ "timestamp" →
  branch_suffix ≠ "random" →
  ARefs names ∈ (run (main sys environ) w).2 →
  ("origin/" +:+ getenv environ "PULL_REQUEST_BRANCH" "create-pull-request/patch")
    ∈ names →
  Forall (λ a, is_hub a = false) (run (main sys environ) w).2.
Proof.
  intros Hsuffix H1 H2 H3.
  apply String.eqb_neq in H1, H2, H3.
  set (target := getenv environ "PULL_REQUEST_BRANCH" "create-pull-request/patch").
  set (P0 := λ a, is_hub a = false ∧ is_refs_query a = false).
  set (Q := λ (d : list action) (r : outcome unit),
         ∀ names, ARefs names ∈ d → ("origin/" +:+ target) ∈ names →
                  Forall (λ a, is_hub a = false) d).
  assert (Hnh : ∀ d, Forall P0 d → Forall (λ a, is_hub a = false) d).
  { intros d Hd. eapply Forall_impl; [exact Hd |]. now intros a [H _]. }
  assert (Hclean : ∀ d r, Forall P0 d → Q d r).
  { intros d r Hd names' _ _. now apply Hnh. }
  assert (HQ : Q (run (main sys environ) w).2 (run (main sys environ) w).1).
  { apply post_run, (framed_post P0). unfold main.
    apply framed_bind; [assumption | emits_auto; split; reflexivity | intros event_name].
    apply framed_bind; [assumption | emits_auto; split; reflexivity | intros path].
    apply framed_bind; [assumption | emits_auto; split; reflexivity | intros event_data].
    apply framed_bind; [assumption | emits_auto; split; reflexivity | intros go].
    destruct go; [| apply framed_emits; [assumption | apply emits_ret]].
    unfold main_body.
    apply framed_bind_open_repo; [assumption | split; reflexivity |].
    apply framed_bind; [assumption | emits_auto | intros github_ref].
    fold target.
    destruct (String.prefix target (str_drop 11 github_ref)).
    { apply framed_emits; [assumption | emits_auto; split; reflexivity]. }
    unfold getenv at 1 2. rewrite Hsuffix. unfold resolve_branch_name.
    rewrite H1, H2, H3, bind_ret_l. cbv beta. unfold andb.
    unfold remote_branch_exists, framed.
    cbn [repo_origin_refs repo_object].
    apply post_bind, post_bind, post_query. intros names'.
    apply post_ret.
    destruct (ref_name_matches names' target) eqn:Hm.
    - eapply post_mono.
      + instantiate (1 := λ d _, Forall P0 d).
        change (emits P0
                  (bind (set_git_config (repo_git (repo_object sys))
                           "openosrs.github@gmail.com" "OpenOSRS")
                     (λ _, bind (checkout_branch (repo_git (repo_object sys))
                                   true target)
                             (λ _, publish_if_changed sys environ event_name
                                     event_data (repo_object sys) target
                                     (str_drop 11 github_ref) true)))).
        unfold publish_if_changed.
        repeat emits_step_existing; split; reflexivity.
      + intros d r Hd d0 Hd0 names'' _ _. simpl.
        apply Forall_app. split; [now apply Hnh |].
        constructor; [reflexivity | now apply Hnh].
    - eapply post_mono.
      + instantiate (1 := λ d _, Forall (λ a, is_refs_query a = false) d).
        change (emits (λ a, is_refs_query a = false)
                  (bind (set_git_config (repo_git (repo_object sys))
                           "openosrs.github@gmail.com" "OpenOSRS")
                     (λ _, bind (checkout_branch (repo_git (repo_object sys))
                                   false target)
                             (λ _, publish_if_changed sys environ event_name
                                     event_data (repo_object sys) target
                                     (str_drop 11 github_ref) false)))).
        emits_auto; reflexivity.
      + intros d r Hd d0 Hd0 names'' Hin Htarget. exfalso. simpl in Hin.
        apply elem_of_app in Hin as [Hin | Hin].
        * revert Hin. apply (Forall_not_elem P0); [exact Hd0 |].
          intros [_ H]. discriminate.
        * apply elem_of_cons in Hin as [[= ->] | Hin].
          -- apply ref_name_matches_iff in Htarget. congruence.
          -- revert Hin. apply (Forall_not_elem _ _ _ Hd). discriminate. }
  intros Hin Htarget. exact (HQ names Hin Htarget).
Qed.

Lemma main_fixed_name_never_creates_witness :
  Forall (λ a, is_hub a = false)
    (run (main (scripted fixed_name_script) fixed_name_environ) tt).2.
Proof.
  apply (main_fixed_name_never_creates (scripted fixed_name_script)
           fixed_name_environ tt "none"
           ["origin/main"; "origin/create-pull-request/patch"]);
    try reflexivity; try discriminate;
    vm_compute;
    repeat first [apply list_elem_of_here | apply list_elem_of_further].
Defined.

(** ** More on the workspace reconciler *)

Module MiniGitMore.
Import MiniGit.





End MiniGitMore.
